(** * CheXaid: configuration resolver and evaluation orchestrator

    A shallow embedding of [args/base_arg_parser.py] (class [BaseArgParser])
    and of [test.py] (functions [test], [load_multi_model], [write_results],
    [write_model_paths]), with the properties of the design document stated
    and proved over it.

    Python objects are values of one type [pyval]; an [argparse.Namespace]
    and a [dict] with string keys are finite maps ([gmap string pyval]).
    A Python exception is the [Err] case of [result].  External effects
    (files, directories, model loading, evaluation) are recorded as a trace
    of [event]s. *)

From Stdlib Require Import Ascii QArith_base Qround.
From stdpp Require Import gmap strings list fin_maps pretty.

Close Scope Q_scope.
#[local] Set Warnings "-register-all".
#[local] Open Scope string_scope.
#[local] Open Scope list_scope.

(** ** Python values *)

Inductive pyval :=
  | PNone
  | PBool (b : bool)
  | PInt (z : Z)
  | PFloat (q : Q)                    (* a finite float, as the rational it denotes *)
  | PNaN                              (* [np.nan] *)
  | PStr (s : string)
  | PList (l : list pyval)
  | PDict (d : gmap string pyval)     (* a [dict] with string keys (a JSON object) *)
  | PNs (ns : gmap string pyval).     (* an [argparse.Namespace]: its [__dict__] *)

(** Truth value of an object in a condition ([if x], [x or y], [not x]). *)
Definition truthy (v : pyval) : bool :=
  match v with
  | PNone => false
  | PBool b => b
  | PInt z => negb (z =? 0)%Z
  | PFloat q => negb (Qeq_bool q 0)
  | PNaN => true
  | PStr s => negb (String.eqb s "")
  | PList l => match l with [] => false | _ => true end
  | PDict d => negb (bool_decide (dom d = ∅))
  | PNs _ => true
  end.

(** [v == 1]. *)
Definition py_eq_one (v : pyval) : bool :=
  match v with
  | PBool b => b
  | PInt z => (z =? 1)%Z
  | PFloat q => Qeq_bool q 1
  | _ => false
  end.

(** [v == s] for a string literal [s]. *)
Definition py_eq_str (v : pyval) (s : string) : bool :=
  match v with
  | PStr s' => String.eqb s' s
  | _ => false
  end.

(** [v is None]. *)
Definition is_none (v : pyval) : bool :=
  match v with PNone => true | _ => false end.

Definition is_ns (v : pyval) : bool :=
  match v with PNs _ => true | _ => false end.

(** ** Exceptions and the error monad *)

Inductive exn :=
  | KeyError
  | AttributeError
  | TypeError
  | IndexError
  | NameError                         (* also [UnboundLocalError], its subclass *)
  | AssertionError
  | ZeroDivisionError
  | FileNotFoundError
  | ValueError (msg : string)
  | Exception (msg : string)
  | Raised (what : string).           (* raised inside an external collaborator *)

Inductive result (A : Type) :=
  | Ok (a : A)
  | Err (e : exn).
Arguments Ok {A} a.
Arguments Err {A} e.

#[export] Instance result_ret : MRet result := λ A a, Ok a.
#[export] Instance result_bind : MBind result := λ A B f m,
  match m with
  | Ok a => f a
  | Err e => Err e
  end.

Definition is_ok {A} (r : result A) : bool :=
  match r with Ok _ => true | Err _ => false end.

(** [d[k]] on a dict, [getattr(ns, k)] on a namespace. *)
Definition getitem (d : gmap string pyval) (k : string) : result pyval :=
  match d !! k with
  | Some v => Ok v
  | None => Err KeyError
  end.

Definition getattr (o : pyval) (k : string) : result pyval :=
  match o with
  | PNs ns => match ns !! k with Some v => Ok v | None => Err AttributeError end
  | _ => Err AttributeError
  end.

(** [setattr(o, k, v)]: only namespaces accept new attributes. *)
Definition setattr (o : pyval) (k : string) (v : pyval) : result pyval :=
  match o with
  | PNs ns => Ok (PNs (<[k := v]> ns))
  | _ => Err AttributeError
  end.

(** [o.g.f] and [o.g.f = v] for a group [g] of a namespace [o]. *)
Definition getattr2 (o : pyval) (g f : string) : result pyval :=
  grp ← getattr o g; getattr grp f.

Definition setattr2 (o : pyval) (g f : string) (v : pyval) : result pyval :=
  grp ← getattr o g; grp' ← setattr grp f v; setattr o g grp'.

(** ** Strings *)

(** [s.split(sep)] for a one-character separator. *)
Fixpoint split_on (sep : ascii) (s : string) : list string :=
  match s with
  | EmptyString => [EmptyString]
  | String c s' =>
      if Ascii.eqb c sep then EmptyString :: split_on sep s'
      else match split_on sep s' with
           | h :: t => String c h :: t
           | [] => [String c EmptyString]
           end
  end.

(** [c in s] for a character [c]. *)
Fixpoint has_char (c : ascii) (s : string) : bool :=
  match s with
  | EmptyString => false
  | String c' s' => Ascii.eqb c' c || has_char c s'
  end.

(** [p in s] for strings: [p] occurs in [s]. *)
Fixpoint str_contains (p s : string) : bool :=
  String.prefix p s ||
  match s with
  | EmptyString => false
  | String _ s' => str_contains p s'
  end.

Definition dot : ascii := "."%char.

(** ** The task-sequence registry and [are_tasks_missing] *)

Inductive dataset := Stanford | NIH | TCGA | Pocus | Hocus | Pulm.

(** The registry key of a dataset's native task sequence. *)
Definition native_key (d : dataset) : string :=
  match d with
  | Stanford => "stanford"
  | NIH => "nih"
  | TCGA => "tcga"
  | Pocus => "pocus"
  | Hocus => "hocus"
  | Pulm => "pulm"
  end.

(** [set(a).issubset(set(b))]. *)
Definition issubset (a b : list string) : bool :=
  bool_decide ((list_to_set a : gset string) ⊆ list_to_set b).

Section registry.

(** [dataset.TASK_SEQUENCES]: the table itself is defined outside the two
    modules embedded here, so it is a parameter of the development. *)
Variable TASK_SEQUENCES : gmap string (list string).

(** [TASK_SEQUENCES[name]]. *)
Definition task_sequences_getitem (name : pyval) : result (list string) :=
  match name with
  | PStr s =>
      match TASK_SEQUENCES !! s with
      | Some l => Ok l
      | None => Err KeyError
      end
  | PList _ | PDict _ | PNs _ => Err TypeError      (* unhashable key *)
  | _ => Err KeyError
  end.

(** One of the six blocks
    [if eval_x or x_train_frac == 1:
       if set(task_sequence).issubset(set(task_seq_x)) is False: return True]. *)
Definition violates (task_sequence native : list string) (eval_x x_train_frac : pyval) : bool :=
  (truthy eval_x || py_eq_one x_train_frac) && negb (issubset task_sequence native).

Definition are_tasks_missing
    (task_sequence eval_su eval_nih eval_pocus eval_hocus eval_pulm eval_tcga
     su_train_frac nih_train_frac pocus_train_frac
     hocus_train_frac pulm_train_frac tcga_train_frac : pyval) : result bool :=
  task_sequence ← task_sequences_getitem task_sequence;
  task_seq_su ← task_sequences_getitem (PStr "stanford");
  task_seq_nih ← task_sequences_getitem (PStr "nih");
  task_seq_tcga ← task_sequences_getitem (PStr "tcga");
  task_seq_pocus ← task_sequences_getitem (PStr "pocus");
  task_seq_hocus ← task_sequences_getitem (PStr "hocus");
  task_seq_pulm ← task_sequences_getitem (PStr "pulm");
  if violates task_sequence task_seq_su eval_su su_train_frac then Ok true
  else if violates task_sequence task_seq_nih eval_nih nih_train_frac then Ok true
  else if violates task_sequence task_seq_tcga eval_tcga tcga_train_frac then Ok true
  else if violates task_sequence task_seq_pocus eval_pocus pocus_train_frac then Ok true
  else if violates task_sequence task_seq_hocus eval_hocus hocus_train_frac then Ok true
  else if violates task_sequence task_seq_pulm eval_pulm pulm_train_frac then Ok true
  else Ok false.

End registry.

(** ** Paths ([posixpath]) *)

Definition slash : ascii := "/"%char.

(** [p[:p.rfind('/') + 1]]: [None] when [p] has no slash. *)
Fixpoint upto_last_slash (p : string) : option string :=
  match p with
  | EmptyString => None
  | String c p' =>
      match upto_last_slash p' with
      | Some h => Some (String c h)
      | None => if Ascii.eqb c slash then Some (String c EmptyString) else None
      end
  end.

(** [s.rstrip('/')]. *)
Fixpoint rstrip_slash (s : string) : string :=
  match s with
  | EmptyString => EmptyString
  | String c s' =>
      let r := rstrip_slash s' in
      if Ascii.eqb c slash && String.eqb r "" then "" else String c r
  end.

Fixpoint ends_with_slash (s : string) : bool :=
  match s with
  | EmptyString => false
  | String c EmptyString => Ascii.eqb c slash
  | String _ s' => ends_with_slash s'
  end.

(** [os.path.dirname(p)]: the head is stripped of trailing slashes unless it
    consists of slashes only. *)
Definition dirname (p : string) : string :=
  let head := default "" (upto_last_slash p) in
  if String.eqb (rstrip_slash head) "" then head else rstrip_slash head.

(** [os.path.join(a, b)]. *)
Definition path_join (a b : string) : string :=
  if String.prefix "/" b then b
  else if String.eqb a "" || ends_with_slash a then a +:+ b
  else a +:+ "/" +:+ b.

Definition as_str (v : pyval) : result string :=
  match v with
  | PStr s => Ok s
  | _ => Err TypeError
  end.

(** ** [BaseArgParser.fix_nested_namespaces] *)

(** The first loop: [for key in args.__dict__: if '.' in key: ...].  A key
    that does not split into exactly two parts fails the tuple unpacking. *)
Fixpoint group_name_keys (keys : list string) : result (list (string * string * string)) :=
  match keys with
  | [] => Ok []
  | key :: keys' =>
      if has_char dot key then
        match split_on dot key with
        | [group; name] =>
            rest ← group_name_keys keys';
            Ok ((group, name, key) :: rest)
        | _ => Err (ValueError "too many values to unpack (expected 2)")
        end
      else group_name_keys keys'
  end.

(** The body of the second loop. *)
Definition move_key (args : gmap string pyval) (gnk : string * string * string)
    : result (gmap string pyval) :=
  let '(group, name, key) := gnk in
  let args := if decide (is_Some (args !! group)) then args
              else <[group := PNs ∅]> args in
  v ← getitem args key;
  grp ← getitem args group;
  grp' ← setattr grp name v;
  Ok (delete key (<[group := grp']> args)).

Fixpoint for_each {S A : Type} (body : S → A → result S) (s : S) (l : list A) : result S :=
  match l with
  | [] => Ok s
  | x :: l' => s' ← body s x; for_each body s' l'
  end.

(** The keys are visited in the order of [map_to_list]; the outcome does not
    depend on it (every key is moved to a place of its own). *)
Definition fix_nested_namespaces (args : gmap string pyval) : result (gmap string pyval) :=
  gnks ← group_name_keys (map_to_list args).*1;
  for_each move_key args gnks.

(** Re-flattening, the inverse the design document tests un-flattening
    against (the repository has no such function): every field [f] of a
    top-level namespace [g] becomes the pair [(g.f, value)], every other
    top-level entry is kept. *)
Definition reflatten_entry (kv : string * pyval) : list (string * pyval) :=
  match kv.2 with
  | PNs ns => (λ fv : string * pyval, (kv.1 +:+ "." +:+ fv.1, fv.2)) <$> map_to_list ns
  | _ => [kv]
  end.

Definition reflatten (args : gmap string pyval) : list (string * pyval) :=
  map_to_list args ≫= reflatten_entry.

(** [BaseArgParser.namespace_to_dict]. *)
Fixpoint namespace_to_dict (v : pyval) : pyval :=
  match v with
  | PNs ns => PDict (namespace_to_dict <$> ns)
  | _ => v
  end.

(** ** Effects *)

Record model := {
  model_name : string;
  task_sequence : list string;
}.

Record loader := {
  loader_name : string;
  class_weights : pyval;           (* [loader.dataset.class_weights] *)
}.

(** What the program does to its environment, in the order it does it. *)
Inductive event :=
  (* args/base_arg_parser.py *)
  | EvJsonLoad (path : string)                           (* open + json.load *)
  | EvMakedirs (path : string)
  | EvJsonDump (path : string) (content : pyval)
  | EvSetDevice (gpu_id : pyval)
  (* test.py *)
  | EvLoadModel (ckpt_path : pyval)                      (* ModelSaver.load_model *)
  | EvLoadEnsemble (ckpt_paths : pyval)                  (* ModelSaver.load_ensemble *)
  | EvGetConfig (config_path : pyval)                    (* predict.get_config *)
  | EvEnsembleModel                                      (* models.EnsembleModel *)
  | EvCSVReaderModel (path : pyval) (tasks : list string)
  | EvMultiModelWrapper
  | EvModelTo (device : pyval)
  | EvGetLoader (split : pyval) (tasks : list string)    (* dataset.get_loader *)
  | EvGetEvalLoaders (tasks : list string)               (* dataset.get_eval_loaders *)
  | EvReadCsv (path : pyval)
  | EvWriteModelPaths (path : string) (lines : list pyval)
  | EvEvaluate (m : model) (ld : loader)                 (* evaluator.evaluate *)
  | EvToCsv (path : string) (row : list (string * pyval)).

(** A computation returns a value or raises, and leaves a trace. *)
Definition io (A : Type) : Type := list event * result A.

#[export] Instance io_ret : MRet io := λ A a, ([], Ok a).
#[export] Instance io_bind : MBind io := λ A B f m,
  match m.2 with
  | Ok a => let r := f a in (m.1 ++ r.1, r.2)
  | Err e => (m.1, Err e)
  end.

Definition lift {A} (r : result A) : io A := ([], r).
Definition emit (e : event) : io unit := ([e], Ok tt).
Definition raise {A} (e : exn) : io A := ([], Err e).
(** A call of an external collaborator: the event, then its outcome. *)
Definition call {A} (e : event) (r : result A) : io A := ([e], r).

Definition trace {A} (m : io A) : list event := m.1.
Definition outcome {A} (m : io A) : result A := m.2.

(** What the resolver reads from its environment. *)
Record world := {
  json_load : string → result pyval;     (* the parsed content of a JSON file *)
  clock_ms : Z;                          (* [int(time.time() * 1000)] *)
  uuid6 : string;                        (* [uuid.uuid4().hex.upper()[0:6]] *)
  repr_of : pyval → string;              (* [str] of a float or a container *)
  cuda_is_available : bool;
  args_to_list : pyval → result (list pyval);   (* [util.args_to_list] on the GPU ids *)
}.

(** ** Numbers *)

Definition as_int (v : pyval) : option Z :=
  match v with
  | PInt z => Some z
  | PBool b => Some (Z.b2z b)
  | _ => None
  end.

Definition as_Q (v : pyval) : option Q :=
  match v with
  | PFloat q => Some q
  | _ => inject_Z <$> as_int v
  end.

(** [a % b != 0].  The operands are numbers ([argparse] converts them);
    applied to anything else the operation is a [TypeError] here. *)
Definition mod_nonzero (a b : pyval) : result bool :=
  match as_int a, as_int b with
  | Some x, Some y =>
      if (y =? 0)%Z then Err ZeroDivisionError else Ok (negb (x mod y =? 0)%Z)
  | _, _ =>
      match a, b with
      | PNaN, PNaN => Ok true
      | PNaN, _ =>
          match as_Q b with
          | Some y => if Qeq_bool y 0 then Err ZeroDivisionError else Ok true
          | None => Err TypeError
          end
      | _, PNaN => match as_Q a with Some _ => Ok true | None => Err TypeError end
      | _, _ =>
          match as_Q a, as_Q b with
          | Some x, Some y =>
              if Qeq_bool y 0 then Err ZeroDivisionError
              else Ok (negb (Qeq_bool (x - y * inject_Z (Qfloor (x / y)))%Q 0))
          | _, _ => Err TypeError
          end
      end
  end.

(** [s in v] for a string [s]. *)
Definition py_contains (s : string) (v : pyval) : result bool :=
  match v with
  | PStr t => Ok (str_contains s t)
  | PList l => Ok (existsb (λ x, py_eq_str x s) l)
  | PDict d | PNs d => Ok (bool_decide (is_Some (d !! s)))
  | _ => Err TypeError
  end.

(** ['{}'.format(v)]. *)
Definition fmt (w : world) (v : pyval) : string :=
  match v with
  | PStr s => s
  | PNone => "None"
  | PBool true => "True"
  | PBool false => "False"
  | PInt z => pretty z
  | PNaN => "nan"
  | _ => repr_of w v
  end.

(** ** [BaseArgParser.process_args] *)

(** [v[0]] and [v[:]] on the value of [--ckpt_paths]. *)
Definition first_item (v : pyval) : result pyval :=
  match v with
  | PList (x :: _) => Ok x
  | PList [] => Err IndexError
  | PStr (String c _) => Ok (PStr (String c EmptyString))
  | PStr EmptyString => Err IndexError
  | PDict _ => Err KeyError
  | _ => Err TypeError
  end.

Definition full_slice (v : pyval) : result pyval :=
  match v with
  | PList _ | PStr _ => Ok v
  | _ => Err TypeError
  end.

(** [o[k]] for a string key. *)
Definition subscript (o : pyval) (k : string) : result pyval :=
  match o with
  | PDict d => getitem d k
  | _ => Err TypeError
  end.

(** [del o[k]]. *)
Definition del_item (o : pyval) (k : string) : result pyval :=
  match o with
  | PDict d => if d !! k is Some _ then Ok (PDict (delete k d)) else Err KeyError
  | _ => Err TypeError
  end.

(** An index into a list of length [n], as [list.__getitem__] accepts it. *)
Definition list_index_ok (n : nat) (x : pyval) : result unit :=
  match as_int x with
  | Some i => if bool_decide (- Z.of_nat n ≤ i < Z.of_nat n)%Z then Ok tt else Err IndexError
  | None => Err TypeError
  end.

(** [for key in src: setattr(dict_def[group], key, src[key])] on [dict_def =
    vars(args)].  For a dict every key is written over the group's
    attribute of that name; the group is looked up only when there is a key
    to write.  Any other iterable fails at its first element. *)
Definition overlay (group : string) (src : pyval) (args : gmap string pyval)
    : result (gmap string pyval) :=
  match src with
  | PDict d =>
      if bool_decide (dom d = ∅) then Ok args
      else
        grp ← getitem args group;
        match grp with
        | PNs ns => Ok (<[group := PNs (d ∪ ns)]> args)
        | _ => Err AttributeError
        end
  | PList [] | PStr EmptyString => Ok args
  | PList (x :: l) =>
      _ ← getitem args group;
      _ ← list_index_ok (S (length l)) x;
      Err TypeError                     (* the attribute name is not a string *)
  | PStr _ =>
      _ ← getitem args group;
      Err TypeError                     (* string indices must be integers *)
  | _ => Err TypeError                  (* not iterable *)
  end.

Definition sidecar_path (ckpt_path : string) : string :=
  path_join (dirname ckpt_path) "args.json".

Section resolver.

Variable TASK_SEQUENCES : gmap string (list string).
Variable w : world.
(** [self.is_training]: set by the train and test parsers. *)
Variable is_training : bool.

(** The call of [are_tasks_missing], its arguments read left to right;
    the training fractions are passed in training mode only. *)
Definition has_tasks_missing (args : pyval) : result bool :=
  ts ← getattr2 args "data_args" "task_sequence";
  eval_su ← getattr2 args "data_args" "eval_su";
  eval_nih ← getattr2 args "data_args" "eval_nih";
  eval_pocus ← getattr2 args "data_args" "eval_pocus";
  eval_hocus ← getattr2 args "data_args" "eval_hocus";
  eval_pulm ← getattr2 args "data_args" "eval_pulm";
  eval_tcga ← getattr2 args "data_args" "eval_tcga";
  if is_training then
    su ← getattr2 args "data_args" "su_train_frac";
    nih ← getattr2 args "data_args" "nih_train_frac";
    pocus ← getattr2 args "data_args" "pocus_train_frac";
    hocus ← getattr2 args "data_args" "hocus_train_frac";
    pulm ← getattr2 args "data_args" "pulm_train_frac";
    tcga ← getattr2 args "data_args" "tcga_train_frac";
    are_tasks_missing TASK_SEQUENCES ts eval_su eval_nih eval_pocus eval_hocus eval_pulm
      eval_tcga su nih pocus hocus pulm tcga
  else
    are_tasks_missing TASK_SEQUENCES ts eval_su eval_nih eval_pocus eval_hocus eval_pulm
      eval_tcga PNone PNone PNone PNone PNone PNone.

(** Lines 249-256: the local [ckpt_path] is bound in neither branch when
    no checkpoint is given ([None] here), and [ckpt_paths] stays [[]]
    unless the list branch is taken. *)
Definition choose_ckpt (args : pyval) : result (option pyval * pyval) :=
  single ← getattr2 args "model_args" "ckpt_path";
  if truthy single then Ok (Some single, PList [])
  else
    several ← getattr2 args "model_args" "ckpt_paths";
    if truthy several then
      first ← first_item several;
      copy ← full_slice several;
      Ok (Some first, copy)
    else Ok (None, PList []).

(** Lines 258-287: read [args.json] next to the checkpoint and write its
    three groups over the arguments. *)
Definition merge_ckpt_args (args : pyval) : io pyval :=
  '(ckpt_path, ckpt_paths) ← lift (choose_ckpt args);
  ckpt_path ← lift (if ckpt_path is Some p then Ok p else Err NameError);
  ckpt_path ← lift (as_str ckpt_path);
  let ckpt_args := sidecar_path ckpt_path in
  file_args ← call (EvJsonLoad ckpt_args) (json_load w ckpt_args);
  lift (
    model_args ← subscript file_args "model_args";
    model_args ← del_item model_args "ckpt_path";
    dict_def ← (if args is PNs ns then Ok ns else Err TypeError);
    dict_def ← overlay "model_args" model_args dict_def;
    args ← setattr2 (PNs dict_def) "model_args" "ckpt_paths" ckpt_paths;
    transform_args ← subscript file_args "transform_args";
    dict_def ← (if args is PNs ns then Ok ns else Err TypeError);
    dict_def ← overlay "transform_args" transform_args dict_def;
    data_args ← subscript file_args "data_args";
    dict_def ← overlay "data_args" data_args dict_def;
    Ok (PNs dict_def)).

(** Lines 223-288. *)
Definition tasks_and_merge (args : pyval) : io pyval :=
  missing ← lift (has_tasks_missing args);
  args ← lift (setattr args "has_tasks_missing" (PBool missing));
  if is_training then mret args else merge_ckpt_args args.

(** Lines 291-302: name the run, create its directory, save the arguments. *)
Definition name_and_save (args : pyval) : io pyval :=
  let date_string := pretty (clock_ms w) +:+ "_" +:+ uuid6 w in
  name ← lift (getattr2 args "logger_args" "name");
  let dir_name := fmt w name +:+ "_" +:+ date_string in
  args ← lift (setattr2 args "logger_args" "dir_name" (PStr dir_name));
  save_dir ← lift (getattr2 args "logger_args" "save_dir");
  save_dir ← lift (as_str save_dir);
  let save_dir := path_join save_dir dir_name in
  _ ← emit (EvMakedirs save_dir);
  _ ← emit (EvJsonDump (path_join save_dir "args.json") (namespace_to_dict args));
  lift (setattr2 args "logger_args" "save_dir" (PStr save_dir)).

(** [assert c]. *)
Definition assert (c : bool) : result unit :=
  if c then Ok tt else Err AssertionError.

(** Lines 307-310. *)
Definition check_ckpt_given (args : pyval) : result unit :=
  if is_training then Ok tt
  else
    single ← getattr2 args "model_args" "ckpt_path";
    if truthy single then Ok tt
    else
      several ← getattr2 args "model_args" "ckpt_paths";
      if truthy several then Ok tt
      else if (if getattr args "test_2d" is Ok v then truthy v else false) then Ok tt
      else
        config_path ← getattr args "config_path";
        if is_none config_path then Err (ValueError "Must specify --ckpt_path in test mode.")
        else Ok tt.

(** Lines 311-314. *)
Definition check_divisibility (args : pyval) : result unit :=
  if is_training then
    iters_per_eval ← getattr2 args "logger_args" "iters_per_eval";
    batch_size ← getattr args "batch_size";
    bad ← mod_nonzero iters_per_eval batch_size;
    if (bad : bool) then Err (ValueError "iters_per_eval must be divisible by batch_size.")
    else
      iters_per_save ← getattr2 args "logger_args" "iters_per_save";
      iters_per_eval ← getattr2 args "logger_args" "iters_per_eval";
      bad ← mod_nonzero iters_per_save iters_per_eval;
      if (bad : bool) then Err (ValueError "iters_per_save must be divisible by iters_per_eval.")
      else Ok tt
  else Ok tt.

Definition su_metric_names : list string :=
  ["stanford-valid_loss"; "stanford-train-dev_loss";
   "stanford-valid_5loss"; "stanford-valid_competition_avg_AUROC"].

Definition nih_metric_names : list string :=
  ["nih-valid_weighted_loss"; "nih-valid_loss"].

(** [v in names] for a list of string literals. *)
Definition one_of (names : list string) (v : pyval) : bool :=
  existsb (py_eq_str v) names.

(** [a and not b] on two attributes of [data_args], read as needed. *)
Definition flag_and_not (args : pyval) (a b : string) : result bool :=
  x ← getattr2 args "data_args" a;
  if truthy x then y ← getattr2 args "data_args" b; Ok (negb (truthy y))
  else Ok false.

(** Lines 318-327. *)
Definition check_metric_name (args : pyval) : result unit :=
  su_only ← flag_and_not args "eval_su" "eval_nih";
  _ ← (if (su_only : bool) then
         m ← getattr2 args "logger_args" "metric_name"; assert (one_of su_metric_names m)
       else Ok tt);
  nih_only ← flag_and_not args "eval_nih" "eval_su";
  _ ← (if (nih_only : bool) then
         m ← getattr2 args "logger_args" "metric_name"; assert (one_of nih_metric_names m)
       else Ok tt);
  nih ← getattr2 args "data_args" "eval_nih";
  if truthy nih then
    su ← getattr2 args "data_args" "eval_su";
    if truthy su then _ ← getattr2 args "logger_args" "metric_name"; Ok tt else Ok tt
  else Ok tt.

(** One disjunct [(word in metric_name and [not] maximize_metric)]. *)
Definition named_and_direction (args : pyval) (word : string) (maximize : bool) : result bool :=
  m ← getattr2 args "logger_args" "metric_name";
  named ← py_contains word m;
  if (named : bool) then
    mm ← getattr2 args "logger_args" "maximize_metric";
    Ok (if maximize then truthy mm else negb (truthy mm))
  else Ok false.

(** Lines 329-331. *)
Definition check_metric_direction (args : pyval) : result unit :=
  a ← named_and_direction args "loss" false;
  if (a : bool) then Ok tt
  else
    b ← named_and_direction args "AUROC" true;
    if (b : bool) then Ok tt
    else
      c ← named_and_direction args "accuracy" true;
      assert c.

(** Lines 316-331. *)
Definition check_best_ckpt_metric (args : pyval) : result unit :=
  if is_training then
    _ ← check_metric_name args;
    check_metric_direction args
  else Ok tt.

(** Lines 333-347: the first flag set, in this order, names the dataset. *)
Definition select_dataset (args : pyval) : result pyval :=
  su ← getattr2 args "data_args" "eval_su";
  if truthy su then setattr2 args "data_args" "dataset_name" (PStr "stanford")
  else
    nih ← getattr2 args "data_args" "eval_nih";
    if truthy nih then setattr2 args "data_args" "dataset_name" (PStr "nih")
    else
      tcga ← getattr2 args "data_args" "eval_tcga";
      if truthy tcga then setattr2 args "data_args" "dataset_name" (PStr "tcga")
      else
        pocus ← getattr2 args "data_args" "eval_pocus";
        if truthy pocus then setattr2 args "data_args" "dataset_name" (PStr "pocus")
        else
          hocus ← getattr2 args "data_args" "eval_hocus";
          if truthy hocus then setattr2 args "data_args" "dataset_name" (PStr "hocus")
          else
            pulm ← getattr2 args "data_args" "eval_pulm";
            if truthy pulm then setattr2 args "data_args" "dataset_name" (PStr "pulm")
            else Err (Exception "need to select a dataset to evaluate on").

(** Lines 349-357. *)
Definition select_device (args : pyval) : io pyval :=
  raw ← lift (getattr args "gpu_ids");
  gpu_ids ← lift (args_to_list w raw);
  args ← lift (setattr args "gpu_ids" (PList gpu_ids));
  match gpu_ids with
  | first :: _ =>
      if cuda_is_available w then
        _ ← emit (EvSetDevice first);
        lift (setattr args "device" (PStr "cuda"))
      else lift (setattr args "device" (PStr "cpu"))
  | [] => lift (setattr args "device" (PStr "cpu"))
  end.

(** Lines 359-362. *)
Definition set_results_dir (args : pyval) : io pyval :=
  if is_training then mret args
  else
    results_dir ← lift (getattr2 args "logger_args" "results_dir");
    name ← lift (getattr2 args "logger_args" "name");
    results_dir ← lift (as_str results_dir);
    name ← lift (as_str name);
    let results_dir := path_join results_dir name in
    args ← lift (setattr2 args "logger_args" "results_dir" (PStr results_dir));
    _ ← emit (EvMakedirs results_dir);
    mret args.

(** Lines 215-331: everything up to the choice of the dataset. *)
Definition resolve_and_check (args : gmap string pyval) : io pyval :=
  args ← lift (fix_nested_namespaces args);
  args ← tasks_and_merge (PNs args);
  args ← name_and_save args;
  args ← lift (setattr args "is_training" (PBool is_training));
  args ← lift (setattr args "start_epoch" (PInt 1));
  _ ← lift (check_ckpt_given args);
  _ ← lift (check_divisibility args);
  _ ← lift (check_best_ckpt_metric args);
  mret args.

Definition process_args (args : gmap string pyval) : io pyval :=
  args ← resolve_and_check args;
  args ← lift (select_dataset args);
  args ← select_device args;
  set_results_dir args.

End resolver.

(** ** [test.py] *)

(** The collaborators of the orchestrator, defined in other modules of the
    repository ([saver], [predict], [models], [dataset], [eval]) or in
    [pandas]; each call returns or raises. *)
Record collaborators := {
  (* ModelSaver.load_model(ckpt_path, gpu_ids, model_args, data_args) *)
  load_model : pyval → pyval → pyval → pyval → result (model * pyval);
  (* ModelSaver.load_ensemble(ckpt_paths, gpu_ids, model_args, data_args) *)
  load_ensemble : pyval → pyval → pyval → pyval → result (model * pyval);
  (* get_config(config_path) *)
  get_config : pyval → result (pyval * pyval);
  (* EnsembleModel(task2models, aggregation_fn, gpu_ids, model_args, data_args) *)
  new_ensemble_model : pyval → pyval → pyval → pyval → pyval → result model;
  (* CSVReaderModel(ckpt_path, tasks) *)
  new_csv_reader_model : pyval → list string → result model;
  (* MultiModelWrapper({'ap': _, 'pa': _, 'lateral': _}) *)
  new_multi_model_wrapper : model → model → model → result model;
  (* model.to(device), then model.eval() *)
  model_to : model → pyval → result model;
  (* get_loader(data_args, transform_args, split, task_sequence, **kwargs) *)
  get_loader : pyval → pyval → pyval → list string → gmap string pyval → result loader;
  (* get_eval_loaders(data_args, transform_args, task_sequence, batch_size, **kwargs) *)
  get_eval_loaders : pyval → pyval → list string → pyval → gmap string pyval
                     → result (list loader);
  (* pd.read_csv(path) *)
  read_csv : pyval → result pyval;
  (* get_evaluator('classification', [eval_loader], None, eval_args)
       .evaluate(model, device, results_dir=_, report_probabilities=True) *)
  evaluate : model → loader → gmap string pyval → pyval → string
             → result (gmap string pyval * pyval);
}.

(** The names bound at module level in [test.py] (imports, [NAN], the four
    functions, and [parser] when run as a script). *)
Definition test_globals : list string :=
  ["os"; "torch"; "time"; "pd"; "np"; "plt"; "Path"; "TestArgParser";
   "get_loader"; "get_eval_loaders"; "TASK_SEQUENCES"; "get_evaluator";
   "CSVReaderModel"; "MultiModelWrapper"; "EnsembleModel"; "ModelSaver";
   "get_config"; "NAN"; "test"; "load_multi_model"; "write_results";
   "write_model_paths"; "parser"].

(** A name that is not a local of the function is looked up in the module. *)
Definition global_name (name : string) : result unit :=
  if bool_decide (name ∈ test_globals) then Ok tt else Err NameError.

(** A [dict] literal or item assignment on a row: a present key keeps its
    place and takes the new value, a new key goes last. *)
Fixpoint dict_set (k : string) (v : pyval) (row : list (string * pyval))
    : list (string * pyval) :=
  match row with
  | [] => [(k, v)]
  | (k', v') :: row' =>
      if String.eqb k' k then (k', v) :: row' else (k', v') :: dict_set k v row'
  end.

Fixpoint dict_get (k : string) (row : list (string * pyval)) : option pyval :=
  match row with
  | [] => None
  | (k', v') :: row' => if String.eqb k' k then Some v' else dict_get k row'
  end.

(** [for metric in eval_metrics: for task in eval_tasks: cols.append(task + metric)]. *)
Definition generic_columns (eval_metrics eval_tasks : list string) : list string :=
  metric ← eval_metrics; task ← eval_tasks; [task +:+ metric].

Definition NAN : pyval := PNaN.

(** [eval_metrics] of [test]. *)
Definition eval_metrics : list string :=
  ["AUPRC"; "AUROC"; "log_loss"; "rads_below_ROC"; "rads_below_PR"; "accuracy"].

Section orchestrator.

Variable TASK_SEQUENCES : gmap string (list string).
Variable w : world.
Variable c : collaborators.

(** [load_multi_model]: the third call names [args], which is neither a
    parameter of the function nor a module-level name. *)
Definition load_multi_model (multi_args model_args data_args gpu_ids : pyval) : io model :=
  ap_ckpt_path ← lift (getattr multi_args "ap_ckpt_path");
  '(model_ap, ckpt_info_ap) ←
    call (EvLoadModel ap_ckpt_path) (load_model c ap_ckpt_path gpu_ids model_args data_args);
  pa_ckpt_path ← lift (getattr multi_args "pa_ckpt_path");
  '(model_pa, ckpt_info_pa) ←
    call (EvLoadModel pa_ckpt_path) (load_model c pa_ckpt_path gpu_ids model_args data_args);
  lateral_ckpt_path ← lift (getattr multi_args "lateral_ckpt_path");
  _ ← lift (global_name "args");
  (* [ModelSaver.load_model(lateral_ckpt_path, args.gpu_ids, args)]: the
     module-level [args] would stand for both remaining arguments. *)
  '(model_lateral, lateral_ckpt_info) ←
    call (EvLoadModel lateral_ckpt_path)
         (load_model c lateral_ckpt_path PNone PNone PNone);
  _ ← lift (assert (bool_decide (task_sequence model_ap = task_sequence model_pa)));
  _ ← lift (assert (bool_decide (task_sequence model_pa = task_sequence model_lateral)));
  model ← call EvMultiModelWrapper (new_multi_model_wrapper c model_ap model_pa model_lateral);
  mret {| model_name := model_name model; task_sequence := task_sequence model_ap |}.

(** The row built by [write_results] before it is written. *)
Definition results_row (dataset_name split : pyval) (eval_metrics : list string)
    (metrics : gmap string pyval) (name ckpt_info evaluate_task_sequence : pyval)
    : result (list (string * pyval)) :=
  eval_tasks ← task_sequences_getitem TASK_SEQUENCES evaluate_task_sequence;
  let cols := ["name"; "dataset"; "epoch"] ++ generic_columns eval_metrics eval_tasks in
  epoch ← subscript ckpt_info "epoch";
  ds ← as_str dataset_name;
  loss ← getitem metrics (ds +:+ "-" +:+ fmt w split +:+ "_loss");
  weighted_loss ← getitem metrics (ds +:+ "-" +:+ fmt w split +:+ "_weighted_loss");
  let row :=
    dict_set "weighted_loss" weighted_loss
      (dict_set (fmt w split +:+ "_loss") loss
        (dict_set "epoch" epoch
          (dict_set "dataset" dataset_name
            (dict_set "name" name [])))) in
  Ok (foldl (λ row col,
               match metrics !! (ds +:+ "-" +:+ fmt w split +:+ "_" +:+ col) with
               | Some v => dict_set col v row
               | None => dict_set col NAN row
               end)
            row (drop 3 cols)).

Definition write_results (dataset_name split : pyval) (eval_metrics : list string)
    (metrics : gmap string pyval) (output_path : string)
    (name ckpt_info evaluate_task_sequence : pyval) : io unit :=
  row ← lift (results_row dataset_name split eval_metrics metrics name ckpt_info
                evaluate_task_sequence);
  emit (EvToCsv output_path row).

(** [f.write(x + '\n')] for each path that [write_model_paths] lists. *)
Definition model_path_lines (ckpt_path ckpt_paths : pyval) : result (list pyval) :=
  if truthy ckpt_path then _ ← as_str ckpt_path; Ok [ckpt_path]
  else if truthy ckpt_paths then
    match ckpt_paths with
    | PList l => _ ← for_each (λ _ p, _ ← as_str p; Ok tt) tt l; Ok l
    | PStr s => Ok ((λ ch, PStr (String ch EmptyString)) <$> String.list_ascii_of_string s)
    | PDict d => Ok (PStr <$> (map_to_list d).*1)
    | _ => Err TypeError
    end
  else Ok [].

Definition write_model_paths (results_dir : string) (ckpt_path ckpt_paths : pyval) : io unit :=
  lines ← lift (model_path_lines ckpt_path ckpt_paths);
  emit (EvWriteModelPaths (path_join results_dir "models.txt") lines).

(** Lines 37-51 of [test]: the five ways to get a model, first match
    wins.  [ckpt_info] stays unbound ([None]) on the multi-view path.
    [model_args] is returned because the last path assigns
    [model_args.pretrained]. *)
Definition get_model (args model_args data_args : pyval)
    : io (model * option pyval * pyval) :=
  use_multi_model ← lift (getattr args "use_multi_model");
  if truthy use_multi_model then
    multi ← lift (getattr args "multi");
    gpu_ids ← lift (getattr args "gpu_ids");
    model ← load_multi_model multi model_args data_args gpu_ids;
    mret (model, None, model_args)
  else
    use_csv_probs ← lift (getattr model_args "use_csv_probs");
    if truthy use_csv_probs then
      ckpt_path ← lift (getattr model_args "ckpt_path");
      name ← lift (getattr data_args "task_sequence");
      tasks ← lift (task_sequences_getitem TASK_SEQUENCES name);
      model ← call (EvCSVReaderModel ckpt_path tasks) (new_csv_reader_model c ckpt_path tasks);
      mret (model, Some (PDict {["epoch" := PInt 0]}), model_args)
    else
      config_path ← lift (getattr args "config_path");
      if negb (is_none config_path) then
        '(task2models, aggregation_fn) ←
          call (EvGetConfig config_path) (get_config c config_path);
        gpu_ids ← lift (getattr args "gpu_ids");
        model ← call EvEnsembleModel
                  (new_ensemble_model c task2models aggregation_fn gpu_ids model_args data_args);
        mret (model, Some (PDict {["epoch" := PInt 0]}), model_args)
      else
        ckpt_paths ← lift (getattr model_args "ckpt_paths");
        if truthy ckpt_paths then
          gpu_ids ← lift (getattr args "gpu_ids");
          '(model, ckpt_info) ←
            call (EvLoadEnsemble ckpt_paths) (load_ensemble c ckpt_paths gpu_ids model_args data_args);
          mret (model, Some ckpt_info, model_args)
        else
          model_args ← lift (setattr model_args "pretrained" (PBool false));
          ckpt_path ← lift (getattr model_args "ckpt_path");
          gpu_ids ← lift (getattr args "gpu_ids");
          '(model, ckpt_info) ←
            call (EvLoadModel ckpt_path) (load_model c ckpt_path gpu_ids model_args data_args);
          mret (model, Some ckpt_info, model_args).

(** The keyword arguments of the two [get_loader] calls. *)
Definition loader_kwargs (args model_args data_args cxr_frac : pyval)
    : result (gmap string pyval) :=
  eval_su ← getattr data_args "eval_su";
  eval_nih ← getattr data_args "eval_nih";
  eval_tcga ← getattr data_args "eval_tcga";
  batch_size ← getattr args "batch_size";
  covar_list ← getattr model_args "covar_list";
  fold_num ← getattr data_args "fold_num";
  Ok (<["su_frac" := PInt (if truthy eval_su then 1 else 0)]>
      (<["nih_frac" := PInt (if truthy eval_nih then 1 else 0)]>
      (<["cxr_frac" := cxr_frac]>
      (<["tcga_frac" := PInt (if truthy eval_tcga then 1 else 0)]>
      (<["batch_size" := batch_size]>
      (<["covar_list" := covar_list]>
      (<["fold_num" := fold_num]> ∅))))))).

(** Lines 65-109 of [test]: the task sequence named in the arguments, the
    train loader (for the class weights) and the evaluation loader. *)
Definition get_loaders (args model_args logger_args data_args transform_args : pyval)
    : io (list string * pyval * loader) :=
  name ← lift (getattr data_args "task_sequence");
  task_sequence ← lift (task_sequences_getitem TASK_SEQUENCES name);
  eval_pocus ← lift (getattr data_args "eval_pocus");
  eval_hocus ← lift (getattr data_args "eval_hocus");
  eval_pulm ← lift (getattr data_args "eval_pulm");
  let cxr_frac :=
    PDict (<["pocus" := eval_pocus]> (<["hocus" := eval_hocus]> (<["pulm" := eval_pulm]> ∅))) in
  uncertain_map_path ← lift (getattr data_args "uncertain_map_path");
  let train_csv_name :=
    if is_none uncertain_map_path then PStr "train" else uncertain_map_path in
  transform_args' ← lift (getattr args "transform_args");
  kwargs ← lift (loader_kwargs args model_args data_args cxr_frac);
  loader ← call (EvGetLoader train_csv_name task_sequence)
             (get_loader c data_args transform_args' train_csv_name task_sequence kwargs);
  let class_weights := class_weights loader in
  batch_size ← lift (getattr args "batch_size");
  frontal_lateral ← lift (getattr model_args "frontal_lateral");
  use_csv_probs ← lift (getattr model_args "use_csv_probs");
  return_info_dict ← lift (if truthy use_csv_probs then Ok use_csv_probs
                           else getattr logger_args "save_cams");
  covar_list ← lift (getattr model_args "covar_list");
  fold_num ← lift (getattr data_args "fold_num");
  eval_loaders ← call (EvGetEvalLoaders task_sequence)
    (get_eval_loaders c data_args transform_args task_sequence batch_size
       (<["frontal_lateral" := frontal_lateral]>
        (<["return_info_dict" := return_info_dict]>
        (<["covar_list" := covar_list]>
        (<["fold_num" := fold_num]> ∅)))));
  eval_loader ← lift (if last eval_loaders is Some l then Ok l else Err IndexError);
  su_rad_perf_path ← lift (getattr data_args "su_rad_perf_path");
  _ ← (if is_none su_rad_perf_path then mret PNone
       else call (EvReadCsv su_rad_perf_path) (read_csv c su_rad_perf_path));
  split ← lift (getattr data_args "split");
  if py_eq_str split "valid" then mret (task_sequence, class_weights, eval_loader)
  else
    transform_args' ← lift (getattr args "transform_args");
    split ← lift (getattr data_args "split");
    kwargs ← lift (loader_kwargs args model_args data_args cxr_frac);
    eval_loader ← call (EvGetLoader split task_sequence)
                    (get_loader c data_args transform_args' split task_sequence kwargs);
    mret (task_sequence, class_weights, eval_loader).

(** Lines 116-142 of [test]: evaluate, and write the scores when asked. *)
Definition score (args model_args logger_args data_args : pyval) (model : model)
    (ckpt_info : option pyval) (class_weights : pyval) (eval_loader : loader)
    (results_dir : string) : io unit :=
  config_path ← lift (getattr args "config_path");
  scored ← lift (if is_none config_path then
                   ckpt_paths ← getattr model_args "ckpt_paths";
                   Ok (negb (truthy ckpt_paths))
                 else Ok false);
  if (scored : bool) then
    has_tasks_missing ← lift (getattr args "has_tasks_missing");
    model_uncertainty ← lift (getattr model_args "model_uncertainty");
    device ← lift (getattr args "device");
    let eval_args : gmap string pyval :=
      <["num_visuals" := PNone]> (<["iters_per_eval" := PNone]>
      (<["has_missing_tasks" := has_tasks_missing]>
      (<["model_uncertainty" := model_uncertainty]>
      (<["class_weights" := class_weights]> (<["max_eval" := PNone]>
      (<["device" := device]> (<["optimizer" := PNone]> ∅))))))) in
    device ← lift (getattr args "device");
    '(metrics, curves) ← call (EvEvaluate model eval_loader)
                           (evaluate c model eval_loader eval_args device results_dir);
    write ← lift (getattr logger_args "write_results");
    if truthy write then
      let results_path := path_join results_dir "scores.csv" in
      dataset_name ← lift (getattr data_args "dataset_name");
      evaluate_task_sequence ←
        lift (if py_eq_str dataset_name "stanford" then Ok (PStr "competition")
              else getattr data_args "task_sequence");
      dataset_name ← lift (getattr data_args "dataset_name");
      split ← lift (getattr data_args "split");
      name ← lift (getattr logger_args "name");
      ckpt_info ← lift (if ckpt_info is Some i then Ok i else Err NameError);
      write_results dataset_name split eval_metrics metrics results_path name ckpt_info
        evaluate_task_sequence
    else mret tt
  else mret tt.

(** Lines 144-151 of [test]: [save_grad_cams] is not imported. *)
Definition save_visuals (logger_args : pyval) : io unit :=
  save_cams ← lift (getattr logger_args "save_cams");
  if truthy save_cams then
    _ ← lift (global_name "save_grad_cams");
    _ ← lift (getattr logger_args "only_competition_cams");
    _ ← lift (getattr logger_args "probabilities_csv");
    mret tt
  else mret tt.

(** The locals of [test] when it reaches line 116. *)
Record locals := {
  l_model_args : pyval;
  l_logger_args : pyval;
  l_data_args : pyval;
  l_model : model;
  l_ckpt_info : option pyval;
  l_task_sequence : list string;
  l_class_weights : pyval;
  l_eval_loader : loader;
  l_results_dir : string;
}.

(** Lines 32-113 of [test]. *)
Definition prepare (args : pyval) : io locals :=
  model_args ← lift (getattr args "model_args");
  logger_args ← lift (getattr args "logger_args");
  data_args ← lift (getattr args "data_args");
  transform_args ← lift (getattr args "transform_args");
  '(model, ckpt_info, model_args) ← get_model args model_args data_args;
  device ← lift (getattr args "device");
  model ← call (EvModelTo device) (model_to c model device);
  '(task_sequence, class_weights, eval_loader) ←
    get_loaders args model_args logger_args data_args transform_args;
  results_dir ← lift (getattr logger_args "results_dir");
  split ← lift (getattr data_args "split");
  results_dir ← lift (as_str results_dir);
  split ← lift (as_str split);
  let results_dir := path_join results_dir split in
  _ ← emit (EvMakedirs results_dir);
  ckpt_path ← lift (getattr model_args "ckpt_path");
  ckpt_paths ← lift (getattr model_args "ckpt_paths");
  _ ← write_model_paths results_dir ckpt_path ckpt_paths;
  mret {| l_model_args := model_args; l_logger_args := logger_args;
          l_data_args := data_args; l_model := model; l_ckpt_info := ckpt_info;
          l_task_sequence := task_sequence; l_class_weights := class_weights;
          l_eval_loader := eval_loader; l_results_dir := results_dir |}.

Definition test (args : pyval) : io unit :=
  l ← prepare args;
  _ ← score args (l_model_args l) (l_logger_args l) (l_data_args l) (l_model l)
        (l_ckpt_info l) (l_class_weights l) (l_eval_loader l) (l_results_dir l);
  save_visuals (l_logger_args l).

(** The script: [test(parser.parse_args())] with the test parser, which
    resolves in evaluation mode. *)
Definition main (raw : gmap string pyval) : io unit :=
  args ← process_args TASK_SEQUENCES w false raw;
  test args.

End orchestrator.

(** * Notions used in the statements *)

(** Every event of a computation satisfies [P]. *)
Definition emits {A} (P : event → Prop) (m : io A) : Prop := Forall P (trace m).

(** Kinds of events. *)
Definition is_load_model (e : event) : bool :=
  match e with EvLoadModel _ => true | _ => false end.

(** The cell that the loop of [write_results] stores in column [col]. *)
Definition cell (metrics : gmap string pyval) (prefix : string → string) (col : string)
    : pyval :=
  default NAN (metrics !! prefix col).

Definition fill (metrics : gmap string pyval) (prefix : string → string)
    (row : list (string * pyval)) (col : string) : list (string * pyval) :=
  match metrics !! prefix col with
  | Some v => dict_set col v row
  | None => dict_set col NAN row
  end.

(** The number of occurrences of [c] in [s]. *)
Fixpoint count_char (c : ascii) (s : string) : nat :=
  match s with
  | EmptyString => 0
  | String c' s' => (if Ascii.eqb c' c then 1 else 0) + count_char c s'
  end.

(** The checkpoint next to which the sidecar file is looked up: the local
    [ckpt_path] of lines 249-256 when it is bound to a string. *)
Definition first_ckpt (args : pyval) : option string :=
  match choose_ckpt args with
  | Ok (Some (PStr p), _) => Some p
  | _ => None
  end.

Definition is_json_load (e : event) : bool :=
  match e with EvJsonLoad _ => true | _ => false end.

(** The evaluation flag of a dataset, an attribute of [data_args]. *)
Definition flag_name (d : dataset) : string :=
  match d with
  | Stanford => "eval_su"
  | NIH => "eval_nih"
  | TCGA => "eval_tcga"
  | Pocus => "eval_pocus"
  | Hocus => "eval_hocus"
  | Pulm => "eval_pulm"
  end.

(** The place of a dataset in the [if]/[elif] chain of lines 334-345. *)
Definition rank (d : dataset) : nat :=
  match d with
  | Stanford => 0
  | NIH => 1
  | TCGA => 2
  | Pocus => 3
  | Hocus => 4
  | Pulm => 5
  end.

(** The evaluation flag of [d] can be read and has truth value [b]. *)
Definition flag_is (args : pyval) (d : dataset) (b : bool) : Prop :=
  ∃ v, getattr2 args "data_args" (flag_name d) = Ok v ∧ truthy v = b.

(** The events by which [test] obtains a model. *)
Definition is_model_load (e : event) : bool :=
  match e with
  | EvLoadModel _ | EvLoadEnsemble _ | EvGetConfig _ | EvEnsembleModel
  | EvCSVReaderModel _ _ | EvMultiModelWrapper => true
  | _ => false
  end.

Definition no_dataset_error : exn :=
  Exception "need to select a dataset to evaluate on".

(** The condition asserted on lines 329-331, for a metric name that is a
    string. *)
Definition direction_agrees (name : string) (maximize : bool) : bool :=
  (str_contains "loss" name && negb maximize)
  || (str_contains "AUROC" name && maximize)
  || (str_contains "accuracy" name && maximize).

Definition is_evaluate (e : event) : bool :=
  match e with EvEvaluate _ _ => true | _ => false end.

Definition is_to_csv (e : event) : bool :=
  match e with EvToCsv _ _ => true | _ => false end.

(** The condition of line 116 on the arguments of [test]. *)
Definition is_scored (args : pyval) : Prop :=
  getattr args "config_path" = Ok PNone ∧
  ∃ ckpt_paths,
    getattr2 args "model_args" "ckpt_paths" = Ok ckpt_paths ∧ truthy ckpt_paths = false.

(** The condition of line 137. *)
Definition asks_to_write (args : pyval) : Prop :=
  ∃ write, getattr2 args "logger_args" "write_results" = Ok write ∧ truthy write = true.

Definition not_scoring (e : event) : Prop := is_evaluate e = false ∧ is_to_csv e = false.


(** ** Sample inputs *)

(** A small registry. *)
Definition sample_sequences : gmap string (list string) :=
  <["stanford" := ["No Finding"; "Edema"; "Pneumonia"]]>
  (<["nih" := ["Pneumonia"]]>
  (<["tcga" := []]>
  (<["pocus" := ["Pneumonia"]]>
  (<["hocus" := ["Pneumonia"]]>
  (<["pulm" := ["Pneumonia"]]>
  (<["competition" := ["Edema"]]>
  (<["su_nih_union" := ["Pneumonia"; "Edema"]]> ∅))))))).

Definition colliding_args : gmap string pyval :=
  <["model_args" := PStr "DenseNet121"]> (<["model_args.pretrained" := PBool true]> ∅).

Definition flat_args : gmap string pyval :=
  <["batch_size" := PInt 16]>
  (<["model_args.ckpt_path" := PStr "ckpts/run/best.pth.tar"]>
  (<["model_args.pretrained" := PBool true]>
  (<["data_args.eval_nih" := PBool true]> ∅))).

(** A sidecar [args.json], as a training run leaves it. *)
Definition sample_sidecar : pyval :=
  PDict (list_to_map [
    ("model_args", PDict (list_to_map [
       ("ckpt_path", PStr ""); ("ckpt_paths", PNone);
       ("model", PStr "DenseNet121"); ("pretrained", PBool false)]));
    ("transform_args", PDict (list_to_map [
       ("scale", PInt 320); ("crop", PInt 320)]));
    ("data_args", PDict (list_to_map [
       ("task_sequence", PStr "pocus"); ("eval_nih", PBool true)]))]).

Definition sample_world : world := {|
  json_load := λ path,
    if String.eqb path "ckpts/run1/args.json" then Ok sample_sidecar
    else Err FileNotFoundError;
  clock_ms := 1541030400000;
  uuid6 := "3F9A1C";
  repr_of := λ _, "<object>";
  cuda_is_available := false;
  args_to_list := λ v, if v is PStr "0" then Ok [PInt 0] else Ok [];
|}.

(** The parsed command line of an evaluation run: one checkpoint, no
    evaluation flag set. *)
Definition evaluation_args : gmap string pyval :=
  list_to_map [
    ("batch_size", PInt 16); ("gpu_ids", PStr "0"); ("config_path", PNone);
    ("use_multi_model", PBool false);
    ("model_args.ckpt_path", PStr "ckpts/run1/best.pth.tar");
    ("model_args.ckpt_paths", PNone);
    ("model_args.pretrained", PBool true);
    ("model_args.use_csv_probs", PBool false);
    ("model_args.covar_list", PStr "");
    ("model_args.frontal_lateral", PBool false);
    ("model_args.model_uncertainty", PBool false);
    ("logger_args.name", PStr "debugging");
    ("logger_args.save_dir", PStr "ckpts/");
    ("logger_args.results_dir", PStr "results/");
    ("logger_args.save_cams", PBool false);
    ("logger_args.write_results", PBool true);
    ("transform_args.scale", PInt 256);
    ("data_args.task_sequence", PStr "pocus");
    ("data_args.eval_su", PBool false); ("data_args.eval_nih", PBool false);
    ("data_args.eval_tcga", PBool false); ("data_args.eval_pocus", PBool false);
    ("data_args.eval_hocus", PBool false); ("data_args.eval_pulm", PBool false);
    ("data_args.uncertain_map_path", PNone);
    ("data_args.su_rad_perf_path", PNone);
    ("data_args.fold_num", PNone);
    ("data_args.split", PStr "test")].

(** The parsed command line of a training run on NIH. *)
Definition training_args : gmap string pyval :=
  list_to_map [
    ("batch_size", PInt 16); ("gpu_ids", PStr "0");
    ("model_args.ckpt_path", PStr "");
    ("model_args.pretrained", PBool true);
    ("logger_args.name", PStr "debugging");
    ("logger_args.save_dir", PStr "ckpts/");
    ("logger_args.iters_per_eval", PInt 16);
    ("logger_args.iters_per_save", PInt 48);
    ("logger_args.metric_name", PStr "nih-valid_loss");
    ("logger_args.maximize_metric", PBool false);
    ("data_args.task_sequence", PStr "nih");
    ("data_args.eval_su", PBool false); ("data_args.eval_nih", PBool true);
    ("data_args.eval_tcga", PBool false); ("data_args.eval_pocus", PBool false);
    ("data_args.eval_hocus", PBool false); ("data_args.eval_pulm", PBool false);
    ("data_args.su_train_frac", PFloat 0); ("data_args.nih_train_frac", PFloat 1);
    ("data_args.pocus_train_frac", PFloat 0); ("data_args.hocus_train_frac", PFloat 0);
    ("data_args.pulm_train_frac", PFloat 0); ("data_args.tcga_train_frac", PFloat 0)].

(** The configuration that a command line resolves to ([PNone] if
    resolution fails). *)
Definition resolved_of (is_training : bool) (raw : gmap string pyval) : pyval :=
  match outcome (process_args sample_sequences sample_world is_training raw) with
  | Ok resolved => resolved
  | Err _ => PNone
  end.

Definition nested_of (raw : gmap string pyval) : gmap string pyval :=
  match fix_nested_namespaces raw with
  | Ok nested => nested
  | Err _ => ∅
  end.

Definition checked_of (is_training : bool) (raw : gmap string pyval) : pyval :=
  match outcome (resolve_and_check sample_sequences sample_world is_training raw) with
  | Ok pre => pre
  | Err _ => PNone
  end.

Definition sample_metrics : gmap string pyval :=
  list_to_map [
    ("nih-test_loss", PFloat (Qmake 1 2));
    ("nih-test_weighted_loss", PFloat (Qmake 3 5));
    ("nih-test_PneumoniaAUROC", PFloat (Qmake 9 10));
    ("nih-test_Pneumoniaaccuracy", PFloat (Qmake 4 5))].

Definition sample_collaborators : collaborators := {|
  load_model := λ ckpt_path _ _ _,
    Ok ({| model_name := "single"; task_sequence := ["Pneumonia"] |},
        PDict {["epoch" := PInt 7]});
  load_ensemble := λ _ _ _ _,
    Ok ({| model_name := "ensemble"; task_sequence := ["Pneumonia"] |},
        PDict {["epoch" := PInt 7]});
  get_config := λ _, Ok (PDict ∅, PStr "mean");
  new_ensemble_model := λ _ _ _ _ _,
    Ok {| model_name := "configured ensemble"; task_sequence := ["Pneumonia"] |};
  new_csv_reader_model := λ _ tasks, Ok {| model_name := "csv"; task_sequence := tasks |};
  new_multi_model_wrapper := λ ap _ _,
    Ok {| model_name := "multi"; task_sequence := task_sequence ap |};
  model_to := λ m _, Ok m;
  get_loader := λ _ _ _ _ _, Ok {| loader_name := "split"; class_weights := PNone |};
  get_eval_loaders := λ _ _ _ _ _,
    Ok [{| loader_name := "train"; class_weights := PNone |};
        {| loader_name := "valid"; class_weights := PNone |}];
  read_csv := λ _, Ok PNone;
  evaluate := λ _ _ _ _ _, Ok (sample_metrics, PNone);
|}.

(** An evaluation run that names an external ensemble configuration and asks
    for the CSV-replay model, next to its checkpoint path. *)
Definition csv_replay_args : gmap string pyval :=
  <["config_path" := PStr "ensemble.json"]>
  (<["model_args.use_csv_probs" := PBool true]> evaluation_args).

(** An evaluation run with an external ensemble configuration and no
    checkpoint. *)
Definition ensemble_only_args : gmap string pyval :=
  <["config_path" := PStr "ensemble.json"]>
  (<["model_args.ckpt_path" := PStr ""]> evaluation_args).

(** An evaluation run with both a single checkpoint and a list. *)
Definition both_ckpt_args : gmap string pyval :=
  <["model_args.ckpt_paths" :=
      PList [PStr "ckpts/run2/a.pth.tar"; PStr "ckpts/run3/b.pth.tar"]]> evaluation_args.

Definition quiet_args : gmap string pyval :=
  <["logger_args.write_results" := PBool false]> evaluation_args.

(** Training runs. *)
Definition maximized_loss_args : gmap string pyval :=
  <["logger_args.maximize_metric" := PBool true]> training_args.

Definition mixed_name_args : gmap string pyval :=
  <["logger_args.metric_name" := PStr "valid_loss_AUROC"]>
  (<["logger_args.maximize_metric" := PBool true]>
  (<["data_args.eval_su" := PBool true]> training_args)).

Definition no_dataset_args : gmap string pyval :=
  <["data_args.eval_nih" := PBool false]> training_args.

Definition no_dataset_bad_cadence_args : gmap string pyval :=
  <["logger_args.iters_per_eval" := PInt 100]> no_dataset_args.

(** An evaluation run whose sidecar sets no evaluation flag either. *)
Definition bare_sidecar_world : world := {|
  json_load := λ _,
    Ok (PDict (list_to_map [
          ("model_args", PDict {["ckpt_path" := PStr ""]});
          ("transform_args", PDict ∅); ("data_args", PDict ∅)]));
  clock_ms := 0;
  uuid6 := "000000";
  repr_of := λ _, "<object>";
  cuda_is_available := false;
  args_to_list := λ _, Ok [];
|}.

(** The three checkpoints of a multi-view run. *)
Definition sample_multi_args : pyval :=
  PNs (list_to_map [
    ("ap_ckpt_path", PStr "ckpts/ap/best.pth.tar");
    ("pa_ckpt_path", PStr "ckpts/pa/best.pth.tar");
    ("lateral_ckpt_path", PStr "ckpts/lateral/best.pth.tar")]).

(** A sidecar that sets the Stanford flag. *)
Definition stanford_world : world := {|
  json_load := λ _,
    Ok (PDict (list_to_map [
          ("model_args", PDict {["ckpt_path" := PStr ""]});
          ("transform_args", PDict ∅);
          ("data_args", PDict (list_to_map [
             ("task_sequence", PStr "stanford"); ("eval_su", PBool true)]))]));
  clock_ms := 1541030400000;
  uuid6 := "3F9A1C";
  repr_of := λ _, "<object>";
  cuda_is_available := false;
  args_to_list := λ _, Ok [];
|}.

Definition stanford_collaborators : collaborators := {|
  load_model := load_model sample_collaborators;
  load_ensemble := load_ensemble sample_collaborators;
  get_config := get_config sample_collaborators;
  new_ensemble_model := new_ensemble_model sample_collaborators;
  new_csv_reader_model := new_csv_reader_model sample_collaborators;
  new_multi_model_wrapper := new_multi_model_wrapper sample_collaborators;
  model_to := model_to sample_collaborators;
  get_loader := get_loader sample_collaborators;
  get_eval_loaders := get_eval_loaders sample_collaborators;
  read_csv := read_csv sample_collaborators;
  evaluate := λ _ _ _ _ _,
    Ok (list_to_map [
          ("stanford-test_loss", PFloat (Qmake 1 2));
          ("stanford-test_weighted_loss", PFloat (Qmake 3 5));
          ("stanford-test_EdemaAUROC", PFloat (Qmake 9 10));
          ("stanford-test_PneumoniaAUROC", PFloat (Qmake 4 5))], PNone);
|}.

Definition stanford_config : pyval :=
  match outcome (process_args sample_sequences stanford_world false evaluation_args) with
  | Ok resolved => resolved
  | Err _ => PNone
  end.

Definition loader_tasks (e : event) : option (list string) :=
  match e with
  | EvGetLoader _ tasks | EvGetEvalLoaders tasks => Some tasks
  | _ => None
  end.

Definition written_columns (e : event) : option (list string) :=
  match e with
  | EvToCsv _ row => Some row.*1
  | _ => None
  end.

(** * Properties *)

Lemma result_bind_Ok {A B} (r : result A) (f : A → result B) (b : B) :
  r ≫= f = Ok b ↔ ∃ a, r = Ok a ∧ f a = Ok b.
Proof.
  destruct r as [a|e]; simpl; split.
  - eauto.
  - intros (a' & [= <-] & H). done.
  - done.
  - intros (a' & [=] & _).
Qed.

Lemma issubset_spec (a b : list string) :
  issubset a b = true ↔ (list_to_set a : gset string) ⊆ list_to_set b.
Proof. unfold issubset. apply bool_decide_eq_true. Qed.

Lemma violates_spec (target native : list string) (ev fr : pyval) :
  violates target native ev fr = true ↔
  (truthy ev = true ∨ py_eq_one fr = true) ∧
  ¬ ((list_to_set target : gset string) ⊆ list_to_set native).
Proof.
  unfold violates.
  rewrite andb_true_iff, orb_true_iff, negb_true_iff.
  rewrite <- not_true_iff_false, issubset_spec. done.
Qed.

(** C3.  For a target task sequence and the six native task sequences all
    registered, [are_tasks_missing] returns, and it returns [True] exactly
    when some dataset that is flagged for evaluation or has training
    fraction equal to 1 has a native task sequence that is not a superset of
    the target one. *)
Theorem are_tasks_missing_iff (TASK_SEQUENCES : gmap string (list string))
    (name : pyval) (ev fr : dataset → pyval) (target : list string) :
  task_sequences_getitem TASK_SEQUENCES name = Ok target →
  (∀ d, is_Some (TASK_SEQUENCES !! native_key d)) →
  ∃ b : bool,
    are_tasks_missing TASK_SEQUENCES name
      (ev Stanford) (ev NIH) (ev Pocus) (ev Hocus) (ev Pulm) (ev TCGA)
      (fr Stanford) (fr NIH) (fr Pocus) (fr Hocus) (fr Pulm) (fr TCGA) = Ok b ∧
    (b = true ↔
     ∃ d native,
       (truthy (ev d) = true ∨ py_eq_one (fr d) = true) ∧
       TASK_SEQUENCES !! native_key d = Some native ∧
       ¬ ((list_to_set target : gset string) ⊆ list_to_set native)).
Proof.
  intros Htarget Hnative.
  destruct (Hnative Stanford) as [su Hsu], (Hnative NIH) as [nih Hnih],
    (Hnative TCGA) as [tcga Htcga], (Hnative Pocus) as [pocus Hpocus],
    (Hnative Hocus) as [hocus Hhocus], (Hnative Pulm) as [pulm Hpulm].
  simpl in *.
  unfold are_tasks_missing. rewrite Htarget. simpl.
  rewrite Hsu, Hnih, Htcga, Hpocus, Hhocus, Hpulm. simpl.
  assert (Hfound : ∀ d native, TASK_SEQUENCES !! native_key d = Some native →
            violates target native (ev d) (fr d) = true →
            ∃ d native,
              (truthy (ev d) = true ∨ py_eq_one (fr d) = true) ∧
              TASK_SEQUENCES !! native_key d = Some native ∧
              ¬ ((list_to_set target : gset string) ⊆ list_to_set native)).
  { intros d native Hd [Hf Hs]%violates_spec. eauto. }
  destruct (violates target su _ _) eqn:V1;
    [eexists; split; [done|]; split; [intros _; by eapply (Hfound Stanford)|done]|].
  destruct (violates target nih _ _) eqn:V2;
    [eexists; split; [done|]; split; [intros _; by eapply (Hfound NIH)|done]|].
  destruct (violates target tcga _ _) eqn:V3;
    [eexists; split; [done|]; split; [intros _; by eapply (Hfound TCGA)|done]|].
  destruct (violates target pocus _ _) eqn:V4;
    [eexists; split; [done|]; split; [intros _; by eapply (Hfound Pocus)|done]|].
  destruct (violates target hocus _ _) eqn:V5;
    [eexists; split; [done|]; split; [intros _; by eapply (Hfound Hocus)|done]|].
  destruct (violates target pulm _ _) eqn:V6;
    [eexists; split; [done|]; split; [intros _; by eapply (Hfound Pulm)|done]|].
  eexists; split; [done|]. split; [done|].
  intros (d & native & Hflag & Hd & Hsub).
  assert (violates target native (ev d) (fr d) = true) as Hv
    by (apply violates_spec; done).
  destruct d; simpl in Hd; congruence.
Qed.

(** C3 at the example of the design document: target
    [{Pneumonia, Edema}], only NIH evaluated, NIH's own sequence
    [{Pneumonia}]. *)
Lemma are_tasks_missing_iff_witness :
  ∃ b : bool,
    are_tasks_missing sample_sequences (PStr "su_nih_union")
      (PBool false) (PBool true) (PBool false) (PBool false) (PBool false) (PBool false)
      PNone PNone PNone PNone PNone PNone = Ok b ∧
    (b = true ↔
     ∃ d native,
       (truthy (if d is NIH then PBool true else PBool false) = true ∨
        py_eq_one PNone = true) ∧
       sample_sequences !! native_key d = Some native ∧
       ¬ ((list_to_set ["Pneumonia"; "Edema"] : gset string) ⊆ list_to_set native)).
Proof.
  apply (are_tasks_missing_iff sample_sequences (PStr "su_nih_union")
           (λ d, if d is NIH then PBool true else PBool false) (λ _, PNone)
           ["Pneumonia"; "Edema"]).
  - vm_compute. reflexivity.
  - intros []; vm_compute; eauto.
Defined.

Example are_tasks_missing_nih_only :
  are_tasks_missing sample_sequences (PStr "su_nih_union")
    (PBool false) (PBool true) (PBool false) (PBool false) (PBool false) (PBool false)
    PNone PNone PNone PNone PNone PNone = Ok true.
Proof. vm_compute. reflexivity. Qed.

(** ** The [io] monad *)

Lemma trace_bind {A B} (m : io A) (f : A → io B) :
  trace (m ≫= f) = trace m ++ match outcome m with Ok a => trace (f a) | Err _ => [] end.
Proof.
  destruct m as [tr [a|e]]; unfold trace, outcome, mbind, io_bind; simpl; [done|].
  by rewrite app_nil_r.
Qed.

Lemma outcome_bind {A B} (m : io A) (f : A → io B) :
  outcome (m ≫= f) = match outcome m with Ok a => outcome (f a) | Err e => Err e end.
Proof. by destruct m as [tr [a|e]]. Qed.

Lemma io_bind_Ok {A B} (m : io A) (f : A → io B) (b : B) :
  outcome (m ≫= f) = Ok b ↔ ∃ a, outcome m = Ok a ∧ outcome (f a) = Ok b.
Proof.
  rewrite outcome_bind. destruct (outcome m) as [a|e]; split.
  - eauto.
  - by intros (a' & [= <-] & H).
  - done.
  - by intros (a' & [=] & _).
Qed.

Lemma emits_bind {A B} (P : event → Prop) (m : io A) (f : A → io B) :
  emits P m → (∀ a, outcome m = Ok a → emits P (f a)) → emits P (m ≫= f).
Proof.
  unfold emits. intros Hm Hf. rewrite trace_bind. apply Forall_app. split; [done|].
  destruct (outcome m) as [a|e]; [by apply Hf | constructor].
Qed.

Lemma emits_lift {A} (P : event → Prop) (r : result A) : emits P (lift r).
Proof. constructor. Qed.

Lemma emits_ret {A} (P : event → Prop) (a : A) : emits P (mret a).
Proof. constructor. Qed.

Lemma emits_raise {A} (P : event → Prop) (e : exn) : emits P (raise (A:=A) e).
Proof. constructor. Qed.

Lemma emits_emit (P : event → Prop) (e : event) : P e → emits P (emit e).
Proof. intros. by repeat constructor. Qed.

Lemma emits_call {A} (P : event → Prop) (e : event) (r : result A) :
  P e → emits P (call e r).
Proof. intros. by repeat constructor. Qed.

Lemma emits_elem {A} (P : event → Prop) (m : io A) (e : event) :
  emits P m → e ∈ trace m → P e.
Proof. unfold emits. rewrite Forall_forall. eauto. Qed.

Ltac emits_step :=
  first
    [ apply emits_lift
    | apply emits_ret
    | apply emits_raise
    | apply emits_emit
    | apply emits_call
    | apply emits_bind; [ | intros ? ? ]
    | match goal with
      | |- emits _ (if ?b then _ else _) => destruct b
      | |- emits _ (match ?x with _ => _ end) => destruct x
      | |- emits _ (let '(_, _) := ?x in _) => destruct x
      end ].

(** ** The multi-view loader *)

(** C5.  [load_multi_model] never returns a model: whatever the three
    checkpoints are, it raises, it never builds the composite handle, and it
    calls the single-checkpoint loader at most twice. *)
Theorem load_multi_model_never_returns (c : collaborators)
    (multi_args model_args data_args gpu_ids : pyval) :
  (∃ e, outcome (load_multi_model c multi_args model_args data_args gpu_ids) = Err e) ∧
  emits (λ e, e ≠ EvMultiModelWrapper)
    (load_multi_model c multi_args model_args data_args gpu_ids) ∧
  (length (filter (λ e, is_load_model e = true)
             (trace (load_multi_model c multi_args model_args data_args gpu_ids))) ≤ 2)%nat.
Proof.
  unfold load_multi_model, emits.
  destruct (getattr multi_args "ap_ckpt_path") as [ap|e1]; cbn;
    [|by repeat split; eauto using Forall_nil with lia].
  destruct (load_model c ap gpu_ids model_args data_args) as [[m1 i1]|e2]; cbn;
    [|by repeat split; eauto using Forall_nil, Forall_cons with lia].
  destruct (getattr multi_args "pa_ckpt_path") as [pa|e3]; cbn;
    [|by repeat split; eauto using Forall_nil, Forall_cons with lia].
  destruct (load_model c pa gpu_ids model_args data_args) as [[m2 i2]|e4]; cbn;
    [|by repeat split; eauto using Forall_nil, Forall_cons with lia].
  destruct (getattr multi_args "lateral_ckpt_path") as [lat|e5]; cbn;
    by repeat split; eauto using Forall_nil, Forall_cons with lia.
Qed.

(** ** The results row *)

Lemma dict_get_set_eq (k : string) (v : pyval) (row : list (string * pyval)) :
  dict_get k (dict_set k v row) = Some v.
Proof.
  induction row as [|[k' v'] row IH]; simpl.
  - by rewrite String.eqb_refl.
  - destruct (String.eqb k' k) eqn:E; simpl; rewrite E; done.
Qed.

Lemma dict_get_set_ne (k k' : string) (v : pyval) (row : list (string * pyval)) :
  k ≠ k' → dict_get k' (dict_set k v row) = dict_get k' row.
Proof.
  intros Hne. induction row as [|[k0 v0] row IH]; simpl.
  - destruct (String.eqb k k') eqn:E; [|done]. by apply String.eqb_eq in E.
  - destruct (String.eqb k0 k) eqn:E; simpl.
    + apply String.eqb_eq in E as ->.
      destruct (String.eqb k k') eqn:E'; [|done]. by apply String.eqb_eq in E'.
    + destruct (String.eqb k0 k'); done.
Qed.

Lemma fill_dict_set metrics prefix row col :
  fill metrics prefix row col = dict_set col (cell metrics prefix col) row.
Proof. unfold fill, cell. by destruct (metrics !! _). Qed.

Lemma fill_keeps metrics prefix cols : ∀ row col,
  dict_get col row = Some (cell metrics prefix col) →
  dict_get col (foldl (fill metrics prefix) row cols) = Some (cell metrics prefix col).
Proof.
  induction cols as [|c0 cols IH]; intros row col Hrow; simpl; [done|].
  apply IH. rewrite fill_dict_set.
  destruct (decide (c0 = col)) as [->|Hne].
  - apply dict_get_set_eq.
  - by rewrite dict_get_set_ne.
Qed.

Lemma fill_all metrics prefix cols : ∀ row col,
  col ∈ cols →
  dict_get col (foldl (fill metrics prefix) row cols) = Some (cell metrics prefix col).
Proof.
  induction cols as [|c0 cols IH]; intros row col Hin; simpl.
  - by apply elem_of_nil in Hin.
  - apply elem_of_cons in Hin as [->|Hin]; [|by apply IH].
    apply fill_keeps. rewrite fill_dict_set. apply dict_get_set_eq.
Qed.

Lemma bind_singleton_fmap {A B} (f : A → B) (l : list A) :
  (l ≫= λ x, [f x]) = f <$> l.
Proof. induction l as [|x l IH]; [done|]. cbn. by f_equal. Qed.

Lemma generic_columns_metric_major (tasks : list string) :
  generic_columns eval_metrics tasks =
    ((λ task, task +:+ "AUPRC") <$> tasks) ++
    ((λ task, task +:+ "AUROC") <$> tasks) ++
    ((λ task, task +:+ "log_loss") <$> tasks) ++
    ((λ task, task +:+ "rads_below_ROC") <$> tasks) ++
    ((λ task, task +:+ "rads_below_PR") <$> tasks) ++
    ((λ task, task +:+ "accuracy") <$> tasks).
Proof.
  unfold generic_columns, eval_metrics.
  rewrite !bind_cons, !bind_singleton_fmap. cbn [mbind list_bind]. by rewrite app_nil_r.
Qed.

#[local] Arguments fmt : simpl never.

Lemma results_row_Ok TS (w : world) (dataset_name split : pyval) (metrics_list : list string)
    (metrics : gmap string pyval) (name ckpt_info seq : pyval) (row : list (string * pyval)) :
  results_row TS w dataset_name split metrics_list metrics name ckpt_info seq = Ok row →
  ∃ tasks dataset,
    task_sequences_getitem TS seq = Ok tasks ∧
    dataset_name = PStr dataset ∧
    ∀ col, col ∈ generic_columns metrics_list tasks →
      dict_get col row =
        Some (default NAN
                (metrics !! (dataset +:+ "-" +:+ fmt w split +:+ "_" +:+ col))).
Proof.
  unfold results_row. intros H.
  apply result_bind_Ok in H as (tasks & Htasks & H).
  apply result_bind_Ok in H as (epoch & _ & H).
  apply result_bind_Ok in H as (dataset & Hdataset & H).
  apply result_bind_Ok in H as (loss & _ & H).
  apply result_bind_Ok in H as (weighted_loss & _ & H).
  destruct dataset_name; try discriminate Hdataset. injection Hdataset as ->.
  injection H as <-. exists tasks, dataset. split; [done|]. split; [done|].
  intros col Hcol.
  by apply (fill_all metrics (λ col, dataset +:+ "-" +:+ fmt w split +:+ "_" +:+ col)).
Qed.

(** C4, amended.  When the metrics table holds the two loss entries
    [<dataset>-<split>_loss] and [<dataset>-<split>_weighted_loss] (and the
    scoring sequence is registered and the checkpoint info has an epoch),
    [write_results] completes and writes one row; every generic column of
    that row holds the table's value for [<dataset>-<split>_<column>] when
    there is one and [NAN] otherwise; the generic columns are enumerated
    metric by metric, and task by task within a metric. *)
Theorem write_results_fills_missing (TASK_SEQUENCES : gmap string (list string)) (w : world)
    (dataset : string) (split : pyval) (metrics : gmap string pyval) (output_path : string)
    (name ckpt_info evaluate_task_sequence : pyval)
    (tasks : list string) (epoch loss weighted_loss : pyval) :
  task_sequences_getitem TASK_SEQUENCES evaluate_task_sequence = Ok tasks →
  subscript ckpt_info "epoch" = Ok epoch →
  metrics !! (dataset +:+ "-" +:+ fmt w split +:+ "_loss") = Some loss →
  metrics !! (dataset +:+ "-" +:+ fmt w split +:+ "_weighted_loss") = Some weighted_loss →
  ∃ row,
    write_results TASK_SEQUENCES w (PStr dataset) split eval_metrics metrics
      output_path name ckpt_info evaluate_task_sequence = ([EvToCsv output_path row], Ok tt) ∧
    (∀ col, col ∈ generic_columns eval_metrics tasks →
       dict_get col row =
         Some (default NAN (metrics !! (dataset +:+ "-" +:+ fmt w split +:+ "_" +:+ col)))) ∧
    generic_columns eval_metrics tasks =
      ((λ task, task +:+ "AUPRC") <$> tasks) ++
      ((λ task, task +:+ "AUROC") <$> tasks) ++
      ((λ task, task +:+ "log_loss") <$> tasks) ++
      ((λ task, task +:+ "rads_below_ROC") <$> tasks) ++
      ((λ task, task +:+ "rads_below_PR") <$> tasks) ++
      ((λ task, task +:+ "accuracy") <$> tasks).
Proof.
  intros Htasks Hepoch Hloss Hweighted.
  destruct (results_row TASK_SEQUENCES w (PStr dataset) split eval_metrics metrics name
              ckpt_info evaluate_task_sequence) as [row|e] eqn:Hrow.
  - exists row. split; [|split; [|apply generic_columns_metric_major]].
    + unfold write_results. by rewrite Hrow.
    + apply results_row_Ok in Hrow as (tasks' & dataset' & Htasks' & [= <-] & Hcols).
      rewrite Htasks in Htasks'. injection Htasks' as <-. done.
  - exfalso. revert Hrow. unfold results_row.
    rewrite Htasks. cbn. rewrite Hepoch. cbn.
    unfold getitem. by rewrite Hloss, Hweighted.
Qed.

(** ** Splitting keys *)

Lemma split_on_not_nil (sep : ascii) (s : string) : split_on sep s ≠ [].
Proof.
  destruct s as [|c s]; simpl; [done|].
  destruct (Ascii.eqb c sep); [done|]. by destruct (split_on sep s).
Qed.

Lemma split_on_length (sep : ascii) (s : string) :
  length (split_on sep s) = S (count_char sep s).
Proof.
  induction s as [|c s IH]; simpl; [done|].
  destruct (Ascii.eqb c sep); simpl; [by rewrite IH|].
  pose proof (split_on_not_nil sep s).
  destruct (split_on sep s); [done|]. simpl in *. done.
Qed.

Lemma has_char_count (c : ascii) (s : string) :
  has_char c s = true ↔ (0 < count_char c s)%nat.
Proof.
  induction s as [|c' s IH]; simpl.
  - split; [done|intros; lia].
  - destruct (Ascii.eqb c' c); simpl; [|done].
    split; [intros; lia|done].
Qed.

Lemma split_on_one (sep : ascii) (s n : string) : split_on sep s = [n] → s = n.
Proof.
  revert n. induction s as [|c s IH]; intros n; simpl.
  - by intros [= <-].
  - destruct (Ascii.eqb c sep).
    + intros [= _ H]. by apply split_on_not_nil in H.
    + destruct (split_on sep s) as [|h t] eqn:E; [by apply split_on_not_nil in E|].
      intros [= <- ->]. f_equal. by apply IH.
Qed.

Lemma split_on_two (s g n : string) :
  split_on dot s = [g; n] → s = g +:+ "." +:+ n.
Proof.
  revert g. induction s as [|c s IH]; intros g; simpl; [done|].
  destruct (Ascii.eqb c dot) eqn:Ec.
  - intros [= <- H]. apply Ascii.eqb_eq in Ec as ->.
    apply split_on_one in H as ->. done.
  - destruct (split_on dot s) as [|h t] eqn:E; [done|].
    intros [= <- ->]. rewrite (IH h eq_refl). done.
Qed.

(** ** Un-flattening *)

(** What the first loop collects: the keys with a separator, each with its
    two parts. *)
Lemma group_name_keys_ok (keys : list string) :
  Forall (λ k, (count_char dot k ≤ 1)%nat) keys →
  ∃ gnks,
    group_name_keys keys = Ok gnks ∧
    Forall (λ gnk : string * string * string,
              split_on dot gnk.2 = [gnk.1.1; gnk.1.2] ∧ gnk.2 ∈ keys) gnks ∧
    sublist gnks.*2 keys.
Proof.
  induction keys as [|k keys IH]; intros Hkeys; simpl.
  - exists []. repeat split; constructor.
  - apply Forall_cons in Hkeys as [Hk Hkeys].
    destruct (IH Hkeys) as (gnks & Hgnks & Hall & Hsub).
    destruct (has_char dot k) eqn:Hdot.
    + apply has_char_count in Hdot.
      pose proof (split_on_length dot k) as Hlen.
      destruct (split_on dot k) as [|g [|n [|x parts]]] eqn:Hsplit; simpl in Hlen; try lia.
      rewrite Hgnks. simpl. eexists. split; [done|]. split.
      * constructor.
        -- simpl. split; [done|]. by left.
        -- eapply Forall_impl; [done|]. intros gnk [? ?]. split; [done|]. by right.
      * simpl. by constructor.
    + exists gnks. split; [done|]. split.
      * eapply Forall_impl; [done|]. intros gnk [? ?]. split; [done|]. by right.
      * by constructor.
Qed.

Lemma reflatten_entry_value (k : string) (v : pyval) :
  is_ns v = false → reflatten_entry (k, v) = [(k, v)].
Proof. by destruct v. Qed.

Lemma reflatten_flat (args : gmap string pyval) :
  (∀ k v, args !! k = Some v → is_ns v = false) →
  reflatten args = map_to_list args.
Proof.
  intros Hflat. unfold reflatten.
  assert (Forall (λ kv, is_ns kv.2 = false) (map_to_list args)) as Hall.
  { apply Forall_forall. intros [k v] Hin%elem_of_map_to_list. by eapply Hflat. }
  induction Hall as [|[k v] l Hv _ IH]; [done|].
  rewrite bind_cons, IH, reflatten_entry_value; done.
Qed.

Lemma reflatten_insert (args : gmap string pyval) (k : string) (v : pyval) :
  args !! k = None →
  reflatten (<[k := v]> args) ≡ₚ reflatten_entry (k, v) ++ reflatten args.
Proof.
  intros Hk. unfold reflatten. by rewrite map_to_list_insert, bind_cons.
Qed.

Lemma reflatten_delete (args : gmap string pyval) (k : string) (v : pyval) :
  args !! k = Some v →
  reflatten args ≡ₚ reflatten_entry (k, v) ++ reflatten (delete k args).
Proof.
  intros Hk. unfold reflatten. by rewrite <- (map_to_list_delete args k v), bind_cons.
Qed.

Lemma reflatten_entry_field (g n : string) (v : pyval) (ns : gmap string pyval) :
  ns !! n = None →
  reflatten_entry (g, PNs (<[n := v]> ns)) ≡ₚ
    (g +:+ "." +:+ n, v) :: reflatten_entry (g, PNs ns).
Proof.
  intros Hn. unfold reflatten_entry. simpl.
  by rewrite map_to_list_insert, fmap_cons.
Qed.

Lemma reflatten_entry_key (g n : string) (v : pyval) (ns : gmap string pyval) :
  ns !! n = Some v → (g +:+ "." +:+ n) ∈ (reflatten_entry (g, PNs ns)).*1.
Proof.
  intros Hn. unfold reflatten_entry. simpl.
  apply list_elem_of_fmap. exists (g +:+ "." +:+ n, v). split; [done|].
  apply list_elem_of_fmap. exists (n, v). split; [done|].
  by apply elem_of_map_to_list.
Qed.

(** One iteration of the second loop moves the pair [(key, v)] under its
    group and leaves the flat view of the arguments as it was. *)
Lemma move_key_reflatten (args : gmap string pyval) (g n : string) (v : pyval) :
  let key := g +:+ "." +:+ n in
  args !! key = Some v →
  is_ns v = false →
  (∀ x, args !! g = Some x → is_ns x = true) →
  NoDup (reflatten args).*1 →
  ∃ args' ns,
    move_key args (g, n, key) = Ok args' ∧
    reflatten args' ≡ₚ reflatten args ∧
    args' !! key = None ∧
    args' !! g = Some (PNs ns) ∧
    (∀ k, k ≠ key → k ≠ g → args' !! k = args !! k).
Proof.
  intros key Hkey Hv Hg Hnodup.
  assert (g ≠ key) as Hne.
  { intros Heq. rewrite <- Heq in Hkey. apply Hg in Hkey. congruence. }
  unfold move_key. destruct (decide (is_Some (args !! g))) as [[x Hx]|Hnone].
  - pose proof (Hg x Hx) as Hns. destruct x as [| | | | | | | |ns]; try done.
    unfold getitem. rewrite Hkey, Hx. simpl.
    exists (delete key (<[g := PNs (<[n := v]> ns)]> args)), (<[n := v]> ns).
    split; [done|].
    assert (ns !! n = None) as Hfresh.
    { destruct (ns !! n) as [y|] eqn:Hy; [|done]. exfalso.
      rewrite (reflatten_delete args key v Hkey) in Hnodup.
      rewrite (reflatten_entry_value key v) in Hnodup by done. simpl in Hnodup.
      apply NoDup_cons in Hnodup as [Hnotin _]. apply Hnotin.
      rewrite (reflatten_delete (delete key args) g (PNs ns))
        by (by rewrite lookup_delete_ne).
      rewrite fmap_app. apply elem_of_app. left. by eapply reflatten_entry_key. }
    split; [|split; [|split]].
    + rewrite delete_insert_ne by done.
      rewrite <- (insert_delete_eq (delete key args)).
      rewrite reflatten_insert by apply lookup_delete_eq.
      rewrite reflatten_entry_field by done.
      rewrite (reflatten_delete args key v Hkey), (reflatten_entry_value key v) by done.
      rewrite (reflatten_delete (delete key args) g (PNs ns))
        by (by rewrite lookup_delete_ne).
      done.
    + apply lookup_delete_eq.
    + rewrite lookup_delete_ne, lookup_insert_eq; done.
    + intros k Hk1 Hk2. rewrite lookup_delete_ne, lookup_insert_ne; done.
  - assert (args !! g = None) as Hgnone by (by apply eq_None_not_Some).
    unfold getitem. rewrite (lookup_insert_ne args g key) by done.
    rewrite Hkey, lookup_insert_eq. simpl.
    rewrite insert_insert_eq.
    exists (delete key (<[g := PNs (<[n := v]> ∅)]> args)), (<[n := v]> ∅).
    split; [done|]. split; [|split; [|split]].
    + rewrite delete_insert_ne by done.
      rewrite reflatten_insert by (by rewrite lookup_delete_ne).
      rewrite reflatten_entry_field by apply lookup_empty.
      rewrite (reflatten_delete args key v Hkey), (reflatten_entry_value key v) by done.
      unfold reflatten_entry. simpl. by rewrite map_to_list_empty.
    + apply lookup_delete_eq.
    + rewrite lookup_delete_ne, lookup_insert_eq; done.
    + intros k Hk1 Hk2. rewrite lookup_delete_ne, lookup_insert_ne; done.
Qed.

Lemma for_each_move_key (gnks : list (string * string * string)) :
  ∀ (args : gmap string pyval) (flat : list (string * pyval)),
    NoDup flat.*1 →
    reflatten args ≡ₚ flat →
    NoDup gnks.*2 →
    Forall (λ gnk : string * string * string,
              gnk.2 = gnk.1.1 +:+ "." +:+ gnk.1.2 ∧
              (∃ v, args !! gnk.2 = Some v ∧ is_ns v = false) ∧
              (∀ x, args !! gnk.1.1 = Some x → is_ns x = true)) gnks →
    ∃ args', for_each move_key args gnks = Ok args' ∧ reflatten args' ≡ₚ flat.
Proof.
  induction gnks as [|[[g n] key] gnks IH]; intros args flat Hflat Hperm Hkeys Hall.
  - by exists args.
  - apply Forall_cons in Hall as [(Hkey & (v & Hv & Hvns) & Hg) Hall].
    simpl in Hkey, Hv, Hg. subst key.
    apply NoDup_cons in Hkeys as [Hfirst Hkeys]. simpl in Hfirst.
    destruct (move_key_reflatten args g n v Hv Hvns Hg)
      as (args' & ns & Hmove & Hperm' & Hgone & Hgroup & Hframe).
    { by rewrite Hperm. }
    cbn [for_each]. rewrite Hmove. cbn [mbind result_bind].
    apply (IH args' flat Hflat); [by rewrite Hperm'|done|].
    apply Forall_forall. intros [[g' n'] key'] Hin.
    pose proof (proj1 (Forall_forall _ _) Hall _ Hin)
      as (Hkey' & (v' & Hv' & Hvns') & Hg').
    simpl in *.
    assert (key' ≠ g +:+ "." +:+ n) as Hne1.
    { intros ->. apply Hfirst. apply list_elem_of_fmap.
      by exists (g', n', g +:+ "." +:+ n). }
    assert (key' ≠ g) as Hne2.
    { intros ->. apply Hg in Hv'. congruence. }
    split; [done|]. split.
    + exists v'. by rewrite Hframe.
    + intros x. destruct (decide (g' = g)) as [->|Hne3].
      * rewrite Hgroup. by intros [= <-].
      * destruct (decide (g' = g +:+ "." +:+ n)) as [->|Hne4].
        -- by rewrite Hgone.
        -- rewrite Hframe by done. apply Hg'.
Qed.

(** C9, amended.  For a raw argument map whose values are plain (no
    namespace), whose keys have at most one separator, and in which no key
    is the group of a key with a separator, un-flattening succeeds, and
    re-flattening its result gives back exactly the original pairs: as a
    list up to order, hence as a map. *)
Theorem unflatten_then_reflatten (raw : gmap string pyval) :
  (∀ k v, raw !! k = Some v → is_ns v = false) →
  (∀ k, is_Some (raw !! k) → (count_char dot k ≤ 1)%nat) →
  (∀ k g n, is_Some (raw !! k) → split_on dot k = [g; n] → raw !! g = None) →
  ∃ nested,
    fix_nested_namespaces raw = Ok nested ∧
    reflatten nested ≡ₚ map_to_list raw ∧
    list_to_map (reflatten nested) = raw.
Proof.
  intros Hflat Hdots Hgroups.
  destruct (group_name_keys_ok (map_to_list raw).*1) as (gnks & Hgnks & Hall & Hsub).
  { apply Forall_forall. intros k Hk. apply Hdots.
    apply list_elem_of_fmap in Hk as ([k' v] & -> & Hin%elem_of_map_to_list). by exists v. }
  destruct (for_each_move_key gnks raw (map_to_list raw)) as (nested & Hloop & Hperm).
  - apply NoDup_fst_map_to_list.
  - by rewrite reflatten_flat.
  - exact (sublist_NoDup _ _ (NoDup_fst_map_to_list raw) Hsub).
  - eapply Forall_impl; [exact Hall|]. intros [[g n] key] [Hkey Hin]. simpl in *.
    apply list_elem_of_fmap in Hin as ([k' v] & -> & Hin%elem_of_map_to_list). simpl in *.
    split; [by apply split_on_two|]. split; [exists v; split; [done|by eapply Hflat]|].
    intros x Hx. rewrite (Hgroups k' g n) in Hx; [done|by exists v|done].
  - exists nested. unfold fix_nested_namespaces. rewrite Hgnks. simpl.
    split; [done|]. split; [done|].
    transitivity (list_to_map (map_to_list raw) : gmap string pyval);
      [|apply list_to_map_to_list].
    apply list_to_map_proper; [|done].
    rewrite Hperm. apply NoDup_fst_map_to_list.
Qed.

(** A property of every entry of a concrete map, entry by entry. *)
Ltac each_entry m tac :=
  apply map_Forall_to_list;
  let l := eval vm_compute in (map_to_list m) in
  change (map_to_list m) with l;
  repeat (apply Forall_cons_2; [tac|]);
  apply Forall_nil_2.

(** C9 as stated fails: every key has at most one separator, yet
    un-flattening raises, because the group [model_args] is already there as
    a plain value. *)
Lemma unflatten_group_collision :
  map_Forall (λ k v, is_ns v = false ∧ (count_char dot k ≤ 1)%nat) colliding_args ∧
  fix_nested_namespaces colliding_args = Err AttributeError.
Proof.
  split; [|vm_compute; reflexivity].
  each_entry colliding_args ltac:(split; [reflexivity|simpl; lia]).
Qed.

(** C9, amended, on a parsed command line. *)
Lemma unflatten_then_reflatten_witness :
  ∃ nested,
    fix_nested_namespaces flat_args = Ok nested ∧
    reflatten nested ≡ₚ map_to_list flat_args ∧
    list_to_map (reflatten nested) = flat_args.
Proof.
  apply (unflatten_then_reflatten flat_args).
  - intros k v Hk.
    refine (map_Forall_lookup_1 (λ _ v, is_ns v = false) flat_args k v _ Hk).
    each_entry flat_args ltac:(reflexivity).
  - intros k [v Hk].
    refine (map_Forall_lookup_1 (λ k _, (count_char dot k ≤ 1)%nat) flat_args k v _ Hk).
    each_entry flat_args ltac:(simpl; lia).
  - intros k g n [v Hk]. revert g n.
    refine (map_Forall_lookup_1
              (λ k _, ∀ g n, split_on dot k = [g; n] → flat_args !! g = None)
              flat_args k v _ Hk).
    each_entry flat_args
      ltac:(intros g n H; vm_compute in H; inversion H; vm_compute; reflexivity).
Defined.

#[local] Arguments sidecar_path : simpl never.
#[local] Arguments path_join : simpl never.
#[local] Arguments dirname : simpl never.
#[local] Arguments merge_ckpt_args : simpl never.
#[local] Arguments name_and_save : simpl never.
#[local] Arguments select_device : simpl never.
#[local] Arguments set_results_dir : simpl never.
#[local] Arguments select_dataset : simpl never.
#[local] Arguments has_tasks_missing : simpl never.
#[local] Arguments choose_ckpt : simpl never.
#[local] Arguments overlay : simpl never.
#[local] Arguments subscript : simpl never.
#[local] Arguments del_item : simpl never.

(** ** Reading a computation backwards *)

Lemma outcome_lift {A} (r : result A) : outcome (lift r) = r.
Proof. done. Qed.

Lemma outcome_ret {A} (a : A) : outcome (mret a : io A) = Ok a.
Proof. done. Qed.

Lemma outcome_emit (e : event) : outcome (emit e) = Ok tt.
Proof. done. Qed.

Lemma outcome_call {A} (e : event) (r : result A) : outcome (call e r) = r.
Proof. done. Qed.

Lemma elem_trace_bind {A B} (m : io A) (f : A → io B) (e : event) :
  e ∈ trace (m ≫= f) ↔ e ∈ trace m ∨ ∃ a, outcome m = Ok a ∧ e ∈ trace (f a).
Proof.
  rewrite trace_bind, elem_of_app. destruct (outcome m) as [a|err]; split.
  - intros [?|?]; eauto.
  - intros [?|(a' & [= <-] & ?)]; eauto.
  - intros [?|H]; [eauto|]. by apply elem_of_nil in H.
  - intros [?|(a' & [=] & _)]. eauto.
Qed.

(** From [... = Ok x], the intermediate results of a sequence of steps. *)
Ltac ok_inv :=
  repeat match goal with
  | H : outcome (_ ≫= _) = Ok _ |- _ =>
      apply io_bind_Ok in H as (? & ? & H); cbn beta in H
  | H : outcome (lift _) = Ok _ |- _ => rewrite outcome_lift in H
  | H : outcome (call _ _) = Ok _ |- _ => rewrite outcome_call in H
  | H : outcome (emit _) = Ok _ |- _ => clear H
  | H : outcome (mret _) = Ok _ |- _ => rewrite outcome_ret in H
  | H : (_ ≫= _) = Ok _ |- _ =>
      apply result_bind_Ok in H as (? & ? & H); cbn beta in H
  | H : Ok _ = Ok _ |- _ => injection H as H; try subst
  | H : Err _ = Ok _ |- _ => discriminate H
  end.

(** ** Attributes after an assignment *)

Lemma getattr_setattr (o o' : pyval) (k k' : string) (v : pyval) :
  setattr o k v = Ok o' →
  getattr o' k' = if decide (k = k') then Ok v else getattr o k'.
Proof.
  destruct o; try done. intros [= <-]. simpl.
  rewrite lookup_insert. by destruct (decide (k = k')).
Qed.

Lemma getattr_setattr_ne (o o' : pyval) (k k' : string) (v : pyval) :
  setattr o k v = Ok o' → k ≠ k' → getattr o' k' = getattr o k'.
Proof. intros H Hne. rewrite (getattr_setattr _ _ _ _ _ H). by rewrite decide_False. Qed.

Lemma getattr_setattr2_ne (o o' : pyval) (g f g' : string) (v : pyval) :
  setattr2 o g f v = Ok o' → g ≠ g' → getattr o' g' = getattr o g'.
Proof.
  unfold setattr2. intros H Hne. ok_inv. by eapply getattr_setattr_ne.
Qed.

Lemma getattr2_setattr2 (o o' : pyval) (g f f' : string) (v : pyval) :
  setattr2 o g f v = Ok o' →
  getattr2 o' g f' = if decide (f = f') then Ok v else getattr2 o g f'.
Proof.
  unfold setattr2, getattr2. intros H. ok_inv.
  rewrite (getattr_setattr _ _ _ g _ H), decide_True by done. simpl.
  match goal with H1 : getattr o g = Ok _, H2 : setattr _ f v = Ok _ |- _ =>
    rewrite H1; simpl; apply (getattr_setattr _ _ _ _ _ H2) end.
Qed.

Lemma getattr2_setattr_ne (o o' : pyval) (k g f : string) (v : pyval) :
  setattr o k v = Ok o' → k ≠ g → getattr2 o' g f = getattr2 o g f.
Proof. intros H Hne. unfold getattr2. by rewrite (getattr_setattr_ne _ _ _ _ _ H Hne). Qed.

Lemma getattr2_setattr2_ne (o o' : pyval) (g f g' f' : string) (v : pyval) :
  setattr2 o g f v = Ok o' → g ≠ g' → getattr2 o' g' f' = getattr2 o g' f'.
Proof. intros H Hne. unfold getattr2. by rewrite (getattr_setattr2_ne _ _ _ _ _ _ H Hne). Qed.

(** ** When the sidecar file is read *)

Lemma merge_ckpt_args_trace (w : world) (args : pyval) :
  trace (merge_ckpt_args w args) =
    match first_ckpt args with
    | Some p => [EvJsonLoad (sidecar_path p)]
    | None => []
    end.
Proof.
  unfold merge_ckpt_args, first_ckpt.
  destruct (choose_ckpt args) as [[[v|] l]|e]; cbn; try done.
  destruct v; cbn; try done.
  destruct (json_load w (sidecar_path s)); cbn; done.
Qed.

Lemma choose_ckpt_setattr (args args' : pyval) (k : string) (v : pyval) :
  setattr args k v = Ok args' → k ≠ "model_args" →
  choose_ckpt args' = choose_ckpt args.
Proof.
  intros H Hne. unfold choose_ckpt.
  by rewrite !(getattr2_setattr_ne _ _ _ _ _ _ H Hne).
Qed.

Lemma tasks_and_merge_trace TS (w : world) (is_training : bool) (args : pyval) :
  trace (tasks_and_merge TS w is_training args) =
    if is_training then []
    else match has_tasks_missing TS false args, first_ckpt args with
         | Ok _, Some p =>
             if is_ns args then [EvJsonLoad (sidecar_path p)] else []
         | _, _ => []
         end.
Proof.
  unfold tasks_and_merge.
  destruct is_training.
  - destruct (has_tasks_missing TS true args); cbn; [|done].
    by destruct (setattr args _ _).
  - destruct (has_tasks_missing TS false args) as [missing|]; cbn; [|by destruct first_ckpt].
    destruct (setattr args "has_tasks_missing" (PBool missing)) as [args'|] eqn:Hset; cbn.
    + change ((merge_ckpt_args w args').1) with (trace (merge_ckpt_args w args')).
      rewrite merge_ckpt_args_trace. unfold first_ckpt.
      rewrite (choose_ckpt_setattr _ _ _ _ Hset) by done.
      destruct args; try done; simpl; by destruct (choose_ckpt _) as [[[[]|] ?]|].
    + destruct args; try done.
Qed.

Lemma name_and_save_no_load (w : world) (args : pyval) :
  emits (λ e, is_json_load e = false) (name_and_save w args).
Proof. unfold name_and_save. repeat emits_step; done. Qed.

Lemma select_device_no_load (w : world) (args : pyval) :
  emits (λ e, is_json_load e = false) (select_device w args).
Proof. unfold select_device. repeat emits_step; done. Qed.

Lemma set_results_dir_no_load (is_training : bool) (args : pyval) :
  emits (λ e, is_json_load e = false) (set_results_dir is_training args).
Proof. unfold set_results_dir. repeat emits_step; done. Qed.

Lemma json_load_events TS (w : world) (is_training : bool)
    (raw : gmap string pyval) (path : string) :
  EvJsonLoad path ∈ trace (process_args TS w is_training raw) ↔
  is_training = false ∧
  ∃ nested missing p,
    fix_nested_namespaces raw = Ok nested ∧
    has_tasks_missing TS false (PNs nested) = Ok missing ∧
    first_ckpt (PNs nested) = Some p ∧
    path = sidecar_path p.
Proof.
  unfold process_args. rewrite elem_trace_bind. split.
  - intros [H|(pre & Hpre & H)].
    + unfold resolve_and_check in H.
      apply elem_trace_bind in H as [H|(nested & Hfix & H)]; [by apply elem_of_nil in H|].
      rewrite outcome_lift in Hfix.
      apply elem_trace_bind in H as [H|(merged & Hmerged & H)].
      * rewrite tasks_and_merge_trace in H.
        destruct is_training; [by apply elem_of_nil in H|].
        destruct (has_tasks_missing TS false (PNs nested)) as [missing|] eqn:Hm;
          [|by apply elem_of_nil in H].
        destruct (first_ckpt (PNs nested)) as [p|] eqn:Hp; [|by apply elem_of_nil in H].
        simpl in H. apply list_elem_of_singleton in H. injection H as ->.
        split; [done|]. by exists nested, missing, p.
      * exfalso. revert H.
        assert (emits (λ e, is_json_load e = false)
                  (args ← name_and_save w merged;
                   args ← lift (setattr args "is_training" (PBool is_training));
                   args ← lift (setattr args "start_epoch" (PInt 1));
                   _ ← lift (check_ckpt_given is_training args);
                   _ ← lift (check_divisibility is_training args);
                   _ ← lift (check_best_ckpt_metric is_training args);
                   mret args)) as Hemits.
        { apply emits_bind; [apply name_and_save_no_load|]. intros.
          repeat emits_step. }
        intros H. by apply (emits_elem _ _ _ Hemits) in H.
    + exfalso. revert H.
      assert (emits (λ e, is_json_load e = false)
                (args ← lift (select_dataset pre);
                 args ← select_device w args;
                 set_results_dir is_training args)) as Hemits.
      { emits_step. emits_step.
        apply emits_bind; [apply select_device_no_load|]. intros.
        apply set_results_dir_no_load. }
      intros H. by apply (emits_elem _ _ _ Hemits) in H.
  - intros (-> & nested & missing & p & Hfix & Hmissing & Hp & ->).
    left. unfold resolve_and_check. apply elem_trace_bind.
    right. exists nested. rewrite outcome_lift. split; [done|].
    apply elem_trace_bind. left. rewrite tasks_and_merge_trace, Hmissing, Hp. simpl.
    by apply list_elem_of_singleton.
Qed.

(** C1, amended.  A sidecar file is read only in evaluation mode and only
    when a checkpoint path is given (a single path, or else the first of the
    list); and in evaluation mode, once un-flattening and the missing-label
    determination have succeeded, it is read whenever a checkpoint path is
    given, whatever else the arguments ask for. *)
Theorem sidecar_read_iff_ckpt_given TS (w : world) (is_training : bool)
    (raw : gmap string pyval) (path : string) :
  EvJsonLoad path ∈ trace (process_args TS w is_training raw) ↔
  is_training = false ∧
  ∃ nested missing p,
    fix_nested_namespaces raw = Ok nested ∧
    has_tasks_missing TS false (PNs nested) = Ok missing ∧
    first_ckpt (PNs nested) = Some p ∧
    path = sidecar_path p.
Proof. apply json_load_events. Qed.

(** ** What the merge writes *)

Lemma overlay_other (g g' : string) (src : pyval) (args args' : gmap string pyval) :
  overlay g src args = Ok args' → g ≠ g' → args' !! g' = args !! g'.
Proof.
  unfold overlay. intros H Hne.
  destruct src as [| | | | |s|l|d|]; try done.
  - destruct s; [by injection H as <-|]. by destruct (getitem args g).
  - destruct l; [by injection H as <-|].
    destruct (getitem args g); [|done]. simpl in H. by destruct (list_index_ok _ _).
  - destruct (bool_decide (dom d = ∅)); [by injection H as <-|].
    destruct (getitem args g) as [[]|]; try done.
    injection H as <-. by rewrite lookup_insert_ne.
Qed.

Lemma overlay_field (g f : string) (d : gmap string pyval) (v : pyval)
    (args args' : gmap string pyval) :
  overlay g (PDict d) args = Ok args' → d !! f = Some v →
  getattr2 (PNs args') g f = Ok v.
Proof.
  unfold overlay. intros H Hf.
  destruct (bool_decide (dom d = ∅)) eqn:Hdom.
  - apply bool_decide_eq_true in Hdom. apply dom_empty_inv_L in Hdom. by subst.
  - destruct (getitem args g) as [[]|]; try done. injection H as <-.
    unfold getattr2. simpl. rewrite lookup_insert_eq. simpl.
    by rewrite (lookup_union_Some_l _ _ _ _ Hf).
Qed.

Lemma overlay_kept (g f : string) (d : gmap string pyval)
    (args args' : gmap string pyval) :
  overlay g (PDict d) args = Ok args' → d !! f = None →
  getattr2 (PNs args') g f = getattr2 (PNs args) g f.
Proof.
  unfold overlay. intros H Hf.
  destruct (bool_decide (dom d = ∅)); [by injection H as <-|].
  unfold getitem in H. destruct (args !! g) as [[]|] eqn:Hg; try done. injection H as <-.
  unfold getattr2. simpl. rewrite lookup_insert_eq, Hg. simpl.
  by rewrite lookup_union_r.
Qed.

Lemma getattr2_other (args' args : gmap string pyval) (g f : string) :
  args' !! g = args !! g → getattr2 (PNs args') g f = getattr2 (PNs args) g f.
Proof. intros H. unfold getattr2. simpl. by rewrite H. Qed.

Lemma choose_ckpt_Ok (args c : pyval) (several : pyval) :
  choose_ckpt args = Ok (Some c, several) →
  ∃ single,
    getattr2 args "model_args" "ckpt_path" = Ok single ∧
    if truthy single then c = single ∧ several = PList []
    else getattr2 args "model_args" "ckpt_paths" = Ok several ∧
         truthy several = true ∧ first_item several = Ok c.
Proof.
  unfold choose_ckpt. intros H.
  destruct (getattr2 args "model_args" "ckpt_path") as [single|]; [|done].
  exists single. split; [done|]. simpl in H.
  destruct (truthy single); [by simplify_eq|].
  destruct (getattr2 args "model_args" "ckpt_paths") as [cli|]; [|done]. simpl in H.
  destruct (truthy cli) eqn:Ht; [|done].
  destruct (first_item cli) as [x|] eqn:Hfirst; [|done]. simpl in H.
  destruct cli; try done; simpl in H; by simplify_eq.
Qed.

(** The arguments as [merge_ckpt_args] leaves them. *)
Lemma merge_ckpt_args_Ok (w : world) (args args' : pyval) :
  outcome (merge_ckpt_args w args) = Ok args' →
  ∃ p several file model,
    choose_ckpt args = Ok (Some (PStr p), several) ∧
    json_load w (sidecar_path p) = Ok file ∧
    subscript file "model_args" = Ok (PDict model) ∧
    (∀ f v, f ≠ "ckpt_path" → f ≠ "ckpt_paths" → model !! f = Some v →
       getattr2 args' "model_args" f = Ok v) ∧
    getattr2 args' "model_args" "ckpt_path" = getattr2 args "model_args" "ckpt_path" ∧
    getattr2 args' "model_args" "ckpt_paths" = Ok several ∧
    (∀ d f v, subscript file "transform_args" = Ok (PDict d) → d !! f = Some v →
       getattr2 args' "transform_args" f = Ok v) ∧
    (∀ d f v, subscript file "data_args" = Ok (PDict d) → d !! f = Some v →
       getattr2 args' "data_args" f = Ok v) ∧
    (∀ g, g ≠ "model_args" → g ≠ "transform_args" → g ≠ "data_args" →
       getattr args' g = getattr args g).
Proof.
  unfold merge_ckpt_args. intros H.
  destruct (choose_ckpt args) as [[[c|] several]|] eqn:Hchoose;
    cbn in H; try discriminate H.
  destruct c as [| | | | |p| | |]; cbn in H; try discriminate H.
  destruct (json_load w (sidecar_path p)) as [file|] eqn:Hfile;
    cbn in H; try discriminate H.
  destruct (subscript file "model_args") as [model0|] eqn:Hmodel;
    cbn in H; try discriminate H.
  destruct (del_item model0 "ckpt_path") as [model1|] eqn:Hdel;
    cbn in H; try discriminate H.
  destruct model0 as [| | | | | | |model|]; try discriminate Hdel.
  unfold del_item in Hdel.
  destruct (model !! "ckpt_path") as [stored|] eqn:Hstored; try discriminate Hdel.
  injection Hdel as <-.
  destruct args as [| | | | | | | |ns]; cbn in H; try discriminate H.
  destruct (overlay "model_args" (PDict (delete "ckpt_path" model)) ns)
    as [ns1|] eqn:Ho1; cbn in H; try discriminate H.
  destruct (ns1 !! "model_args") as [grp|] eqn:Hgrp; cbn in H; try discriminate H.
  destruct grp as [| | | | | | | |mns]; cbn in H; try discriminate H.
  destruct (subscript file "transform_args") as [transform|] eqn:Htransform;
    cbn in H; try discriminate H.
  destruct (overlay "transform_args" transform _) as [ns2|] eqn:Ho2;
    cbn in H; try discriminate H.
  destruct (subscript file "data_args") as [data|] eqn:Hdata;
    cbn in H; try discriminate H.
  destruct (overlay "data_args" data ns2) as [ns3|] eqn:Ho3;
    cbn in H; try discriminate H.
  injection H as <-.
  exists p, several, file, model. repeat split; try done.
  - intros f v Hf1 Hf2 Hv.
    rewrite (getattr2_other ns3 ns2) by (by eapply overlay_other).
    rewrite (getattr2_other ns2 _) by (by eapply overlay_other).
    unfold getattr2. simpl. rewrite lookup_insert_eq. simpl.
    rewrite lookup_insert_ne by done.
    assert (getattr2 (PNs ns1) "model_args" f = Ok v) as Hget.
    { eapply overlay_field; [done|]. by rewrite lookup_delete_ne. }
    unfold getattr2 in Hget. simpl in Hget. by rewrite Hgrp in Hget.
  - rewrite (getattr2_other ns3 ns2) by (by eapply overlay_other).
    rewrite (getattr2_other ns2 _) by (by eapply overlay_other).
    unfold getattr2 at 1. simpl. rewrite lookup_insert_eq. simpl.
    rewrite lookup_insert_ne by done.
    assert (getattr2 (PNs ns1) "model_args" "ckpt_path"
            = getattr2 (PNs ns) "model_args" "ckpt_path") as Hget.
    { eapply overlay_kept; [done|]. apply lookup_delete_eq. }
    unfold getattr2 at 1 in Hget. simpl in Hget. by rewrite Hgrp in Hget.
  - rewrite (getattr2_other ns3 ns2) by (by eapply overlay_other).
    rewrite (getattr2_other ns2 _) by (by eapply overlay_other).
    unfold getattr2. simpl. rewrite lookup_insert_eq. simpl.
    by rewrite lookup_insert_eq.
  - intros d f v Hd Hv. rewrite Htransform in Hd. injection Hd as ->.
    rewrite (getattr2_other ns3 ns2) by (by eapply overlay_other).
    by eapply overlay_field.
  - intros d f v Hd Hv. rewrite Hdata in Hd. injection Hd as ->.
    by eapply overlay_field.
  - intros g Hg1 Hg2 Hg3. simpl.
    rewrite (overlay_other _ _ _ _ _ Ho3), (overlay_other _ _ _ _ _ Ho2) by done.
    rewrite lookup_insert_ne by done.
    by rewrite (overlay_other _ _ _ _ _ Ho1).
Qed.

(** ** The steps after the merge leave the merged groups alone *)

Lemma resolve_and_check_Ok TS (w : world) (is_training : bool)
    (raw : gmap string pyval) (pre : pyval) :
  outcome (resolve_and_check TS w is_training raw) = Ok pre →
  ∃ nested merged named marked,
    fix_nested_namespaces raw = Ok nested ∧
    outcome (tasks_and_merge TS w is_training (PNs nested)) = Ok merged ∧
    outcome (name_and_save w merged) = Ok named ∧
    setattr named "is_training" (PBool is_training) = Ok marked ∧
    setattr marked "start_epoch" (PInt 1) = Ok pre ∧
    check_ckpt_given is_training pre = Ok tt ∧
    check_divisibility is_training pre = Ok tt ∧
    check_best_ckpt_metric is_training pre = Ok tt.
Proof.
  unfold resolve_and_check. intros H. ok_inv.
  repeat match goal with u : unit |- _ => destruct u end.
  eauto 12.
Qed.

Lemma process_args_Ok TS (w : world) (is_training : bool)
    (raw : gmap string pyval) (resolved : pyval) :
  outcome (process_args TS w is_training raw) = Ok resolved →
  ∃ pre selected deviced,
    outcome (resolve_and_check TS w is_training raw) = Ok pre ∧
    select_dataset pre = Ok selected ∧
    outcome (select_device w selected) = Ok deviced ∧
    outcome (set_results_dir is_training deviced) = Ok resolved.
Proof. unfold process_args. intros H. ok_inv. eauto 10. Qed.

Lemma name_and_save_frame (w : world) (args args' : pyval) :
  outcome (name_and_save w args) = Ok args' →
  (∀ g, g ≠ "logger_args" → getattr args' g = getattr args g) ∧
  (∀ f, f ≠ "dir_name" → f ≠ "save_dir" →
     getattr2 args' "logger_args" f = getattr2 args "logger_args" f).
Proof.
  unfold name_and_save. intros H. ok_inv.
  match goal with
  | H1 : setattr2 args _ "dir_name" _ = Ok ?a, H2 : setattr2 ?a _ "save_dir" _ = Ok _ |- _ =>
      split;
      [ intros g Hg;
        by rewrite (getattr_setattr2_ne _ _ _ _ _ _ H2), (getattr_setattr2_ne _ _ _ _ _ _ H1)
      | intros f Hf1 Hf2;
        by rewrite (getattr2_setattr2 _ _ _ _ _ _ H2), decide_False,
             (getattr2_setattr2 _ _ _ _ _ _ H1), decide_False ]
  end.
Qed.

Lemma select_device_frame (w : world) (args args' : pyval) :
  outcome (select_device w args) = Ok args' →
  ∀ g, g ≠ "gpu_ids" → g ≠ "device" → getattr args' g = getattr args g.
Proof.
  unfold select_device. intros H g Hg1 Hg2. ok_inv.
  match goal with
  | H1 : setattr args "gpu_ids" _ = Ok ?a |- _ =>
      rewrite <- (getattr_setattr_ne _ _ _ g _ H1) by done
  end.
  match goal with
  | H2 : outcome (match ?ids with [] => _ | _ :: _ => _ end) = Ok _ |- _ =>
      destruct ids as [|first ids]; [|destruct (cuda_is_available w)]; ok_inv;
      by eapply getattr_setattr_ne
  end.
Qed.

Lemma set_results_dir_frame (is_training : bool) (args args' : pyval) :
  outcome (set_results_dir is_training args) = Ok args' →
  ∀ g, g ≠ "logger_args" → getattr args' g = getattr args g.
Proof.
  unfold set_results_dir. intros H g Hg.
  destruct is_training; ok_inv; [done|]. by eapply getattr_setattr2_ne.
Qed.

Lemma getattr2_group (args args' : pyval) (g f : string) :
  getattr args' g = getattr args g → getattr2 args' g f = getattr2 args g f.
Proof. intros H. unfold getattr2. by rewrite H. Qed.

(** ** The choice of the dataset *)

Lemma select_dataset_none (args : pyval) :
  (∀ d, flag_is args d false) →
  select_dataset args = Err (Exception "need to select a dataset to evaluate on").
Proof.
  intros Hflags. unfold select_dataset.
  destruct (Hflags Stanford) as (v1 & H1 & T1), (Hflags NIH) as (v2 & H2 & T2),
    (Hflags TCGA) as (v3 & H3 & T3), (Hflags Pocus) as (v4 & H4 & T4),
    (Hflags Hocus) as (v5 & H5 & T5), (Hflags Pulm) as (v6 & H6 & T6).
  simpl in H1, H2, H3, H4, H5, H6.
  rewrite H1; cbn; rewrite T1, H2; cbn; rewrite T2, H3; cbn; rewrite T3, H4; cbn.
  rewrite T4, H5; cbn; rewrite T5, H6; cbn. by rewrite T6.
Qed.

Lemma select_dataset_Ok (args args' : pyval) :
  select_dataset args = Ok args' →
  ∃ d,
    flag_is args d true ∧
    (∀ d', (rank d' < rank d)%nat → flag_is args d' false) ∧
    getattr2 args' "data_args" "dataset_name" = Ok (PStr (native_key d)) ∧
    (∀ g, g ≠ "data_args" → getattr args' g = getattr args g) ∧
    (∀ f, f ≠ "dataset_name" →
       getattr2 args' "data_args" f = getattr2 args "data_args" f).
Proof.
  unfold select_dataset. intros H.
  assert (∀ name, setattr2 args "data_args" "dataset_name" (PStr name) = Ok args' →
            getattr2 args' "data_args" "dataset_name" = Ok (PStr name) ∧
            (∀ g, g ≠ "data_args" → getattr args' g = getattr args g) ∧
            (∀ f, f ≠ "dataset_name" →
               getattr2 args' "data_args" f = getattr2 args "data_args" f)) as Hset.
  { intros name Hname. split; [|split].
    - by rewrite (getattr2_setattr2 _ _ _ _ _ _ Hname), decide_True.
    - intros g Hg. by eapply getattr_setattr2_ne.
    - intros f Hf. by rewrite (getattr2_setattr2 _ _ _ _ _ _ Hname), decide_False. }
  destruct (getattr2 args "data_args" "eval_su") as [su|] eqn:Hsu; [|done]. simpl in H.
  destruct (truthy su) eqn:Tsu.
  { exists Stanford. split; [by exists su|]. split; [simpl; intros; lia|]. by apply Hset. }
  destruct (getattr2 args "data_args" "eval_nih") as [nih|] eqn:Hnih; [|done]. simpl in H.
  destruct (truthy nih) eqn:Tnih.
  { exists NIH. split; [by exists nih|]. split; [|by apply Hset].
    intros []; simpl; intros; try lia. by exists su. }
  destruct (getattr2 args "data_args" "eval_tcga") as [tcga|] eqn:Htcga; [|done].
  simpl in H. destruct (truthy tcga) eqn:Ttcga.
  { exists TCGA. split; [by exists tcga|]. split; [|by apply Hset].
    intros []; simpl; intros; try lia; [by exists su|by exists nih]. }
  destruct (getattr2 args "data_args" "eval_pocus") as [pocus|] eqn:Hpocus; [|done].
  simpl in H. destruct (truthy pocus) eqn:Tpocus.
  { exists Pocus. split; [by exists pocus|]. split; [|by apply Hset].
    intros []; simpl; intros; try lia; [by exists su|by exists nih|by exists tcga]. }
  destruct (getattr2 args "data_args" "eval_hocus") as [hocus|] eqn:Hhocus; [|done].
  simpl in H. destruct (truthy hocus) eqn:Thocus.
  { exists Hocus. split; [by exists hocus|]. split; [|by apply Hset].
    intros []; simpl; intros; try lia;
      [by exists su|by exists nih|by exists tcga|by exists pocus]. }
  destruct (getattr2 args "data_args" "eval_pulm") as [pulm|] eqn:Hpulm; [|done].
  simpl in H. destruct (truthy pulm) eqn:Tpulm; [|done].
  exists Pulm. split; [by exists pulm|]. split; [|by apply Hset].
  intros []; simpl; intros; try lia;
    [by exists su|by exists nih|by exists tcga|by exists pocus|by exists hocus].
Qed.

Lemma process_args_loads_no_model TS (w : world) (is_training : bool)
    (raw : gmap string pyval) :
  emits (λ e, is_model_load e = false) (process_args TS w is_training raw).
Proof.
  unfold process_args, resolve_and_check, tasks_and_merge, merge_ckpt_args,
    name_and_save, select_device, set_results_dir.
  repeat emits_step; done.
Qed.

Lemma flag_is_true_false (args : pyval) (d : dataset) :
  flag_is args d true → flag_is args d false → False.
Proof. intros (v & Hv & Ht) (v' & Hv' & Hf). congruence. Qed.

Lemma setattr2_is_Ok (args : pyval) (g f f' : string) (v v' : pyval) :
  getattr2 args g f = Ok v → ∃ args', setattr2 args g f' v' = Ok args'.
Proof.
  unfold getattr2, setattr2. intros H.
  destruct (getattr args g) as [grp|] eqn:Hg; [|done]. simpl in *.
  destruct grp; try done. simpl. destruct args; try done. simpl. eauto.
Qed.

Lemma first_flag (args : pyval) :
  (∀ d, ∃ b, flag_is args d b) →
  (∀ d, flag_is args d false) ∨
  ∃ d, flag_is args d true ∧ ∀ d', (rank d' < rank d)%nat → flag_is args d' false.
Proof.
  intros Hreadable.
  destruct (Hreadable Stanford) as [[] H1];
    [right; exists Stanford; split; [done|simpl; intros; lia]|].
  destruct (Hreadable NIH) as [[] H2];
    [right; exists NIH; split; [done|intros []; simpl; intros; (lia || done)]|].
  destruct (Hreadable TCGA) as [[] H3];
    [right; exists TCGA; split; [done|intros []; simpl; intros; (lia || done)]|].
  destruct (Hreadable Pocus) as [[] H4];
    [right; exists Pocus; split; [done|intros []; simpl; intros; (lia || done)]|].
  destruct (Hreadable Hocus) as [[] H5];
    [right; exists Hocus; split; [done|intros []; simpl; intros; (lia || done)]|].
  destruct (Hreadable Pulm) as [[] H6];
    [right; exists Pulm; split; [done|intros []; simpl; intros; (lia || done)]|].
  left. by intros [].
Qed.

Ltac skip_flag H d :=
  let v := fresh "v" in
  let Hv := fresh "Hv" in
  let Ht := fresh "Ht" in
  destruct (H d) as (v & Hv & Ht); [simpl; lia|];
  simpl in Hv; rewrite Hv; cbn; rewrite Ht; cbn.

Lemma select_dataset_some (args : pyval) (d : dataset) :
  flag_is args d true →
  (∀ d', (rank d' < rank d)%nat → flag_is args d' false) →
  ∃ selected, select_dataset args = Ok selected.
Proof.
  intros (v & Hv & Ht) Hbefore. unfold select_dataset.
  destruct d; simpl in Hv.
  - rewrite Hv; cbn; rewrite Ht. by eapply setattr2_is_Ok.
  - skip_flag Hbefore Stanford.
    rewrite Hv; cbn; rewrite Ht. by eapply setattr2_is_Ok.
  - skip_flag Hbefore Stanford. skip_flag Hbefore NIH.
    rewrite Hv; cbn; rewrite Ht. by eapply setattr2_is_Ok.
  - skip_flag Hbefore Stanford. skip_flag Hbefore NIH. skip_flag Hbefore TCGA.
    rewrite Hv; cbn; rewrite Ht. by eapply setattr2_is_Ok.
  - skip_flag Hbefore Stanford. skip_flag Hbefore NIH. skip_flag Hbefore TCGA.
    skip_flag Hbefore Pocus.
    rewrite Hv; cbn; rewrite Ht. by eapply setattr2_is_Ok.
  - skip_flag Hbefore Stanford. skip_flag Hbefore NIH. skip_flag Hbefore TCGA.
    skip_flag Hbefore Pocus. skip_flag Hbefore Hocus.
    rewrite Hv; cbn; rewrite Ht. by eapply setattr2_is_Ok.
Qed.

Lemma rank_inj (d d' : dataset) : rank d = rank d' → d = d'.
Proof. by destruct d, d'. Qed.

(** C8, amended.  When resolution reaches the choice of the dataset with
    its six flags readable, then either none of them is set (as they stand
    then: in evaluation mode after the sidecar's data group was written over
    them) and resolution fails with the error "need to select a dataset",
    during resolution and with no model loaded; or one is set, and the
    [dataset_name] attached is that of the first one set, in the order
    Stanford, NIH, TCGA, Pocus, Hocus, Pulm. *)
Theorem dataset_label_or_error TS (w : world) (c : collaborators) (is_training : bool)
    (raw : gmap string pyval) (pre : pyval) :
  outcome (resolve_and_check TS w is_training raw) = Ok pre →
  (∀ d, ∃ b, flag_is pre d b) →
  ((∀ d, flag_is pre d false) ∧
   outcome (process_args TS w is_training raw) = Err no_dataset_error ∧
   (is_training = false →
    outcome (main TS w c raw) = Err no_dataset_error ∧
    emits (λ e, is_model_load e = false) (main TS w c raw)))
  ∨
  (∃ d selected,
     flag_is pre d true ∧
     (∀ d', (rank d' < rank d)%nat → flag_is pre d' false) ∧
     select_dataset pre = Ok selected ∧
     getattr2 selected "data_args" "dataset_name" = Ok (PStr (native_key d)) ∧
     ∀ resolved,
       outcome (process_args TS w is_training raw) = Ok resolved →
       getattr2 resolved "data_args" "dataset_name" = Ok (PStr (native_key d))).
Proof.
  intros Hpre Hreadable.
  destruct (first_flag pre Hreadable) as [Hnone|(d & Hd & Hbefore)].
  - left. split; [done|].
    assert (outcome (process_args TS w is_training raw) = Err no_dataset_error) as Hout.
    { unfold process_args. rewrite outcome_bind, Hpre, outcome_bind, outcome_lift.
      by rewrite (select_dataset_none _ Hnone). }
    split; [done|]. intros ->. unfold main.
    split; [by rewrite outcome_bind, Hout|].
    unfold emits. rewrite trace_bind, Hout, app_nil_r.
    apply process_args_loads_no_model.
  - right. destruct (select_dataset_some pre d Hd Hbefore) as [selected Hsel].
    destruct (select_dataset_Ok _ _ Hsel) as (d0 & Hd0 & Hbefore0 & Hname & _).
    assert (d0 = d) as ->.
    { apply rank_inj.
      destruct (Nat.lt_trichotomy (rank d0) (rank d)) as [Hlt|[Heq|Hgt]]; [|done|].
      - exfalso. eauto using flag_is_true_false.
      - exfalso. eauto using flag_is_true_false. }
    exists d, selected. repeat split; try done.
    intros resolved Hres.
    apply process_args_Ok in Hres
      as (pre' & selected' & deviced & Hpre' & Hsel' & Hdev & Hdir).
    rewrite Hpre in Hpre'. injection Hpre' as <-.
    rewrite Hsel in Hsel'. injection Hsel' as <-.
    rewrite <- Hname. apply getattr2_group.
    rewrite (set_results_dir_frame _ _ _ Hdir) by done.
    by rewrite (select_device_frame _ _ _ Hdev).
Qed.

(** ** From the un-flattened arguments to the checks *)

Lemma tasks_and_merge_training TS (w : world) (args merged : pyval) :
  outcome (tasks_and_merge TS w true args) = Ok merged →
  ∀ g, g ≠ "has_tasks_missing" → getattr merged g = getattr args g.
Proof.
  unfold tasks_and_merge. intros H g Hg. ok_inv. by eapply getattr_setattr_ne.
Qed.

Lemma tasks_and_merge_evaluation TS (w : world) (args merged : pyval) :
  outcome (tasks_and_merge TS w false args) = Ok merged →
  ∃ missing marked,
    has_tasks_missing TS false args = Ok missing ∧
    setattr args "has_tasks_missing" (PBool missing) = Ok marked ∧
    outcome (merge_ckpt_args w marked) = Ok merged.
Proof. unfold tasks_and_merge. intros H. ok_inv. eauto. Qed.

Lemma resolve_and_check_frame TS (w : world) (is_training : bool)
    (raw : gmap string pyval) (pre : pyval) :
  outcome (resolve_and_check TS w is_training raw) = Ok pre →
  ∃ nested merged,
    fix_nested_namespaces raw = Ok nested ∧
    outcome (tasks_and_merge TS w is_training (PNs nested)) = Ok merged ∧
    (∀ g, g ≠ "logger_args" → g ≠ "is_training" → g ≠ "start_epoch" →
       getattr pre g = getattr merged g) ∧
    (∀ f, f ≠ "dir_name" → f ≠ "save_dir" →
       getattr2 pre "logger_args" f = getattr2 merged "logger_args" f) ∧
    check_best_ckpt_metric is_training pre = Ok tt.
Proof.
  intros H.
  apply resolve_and_check_Ok in H
    as (nested & merged & named & marked & Hfix & Hmerge & Hname & Hmark & Hpre & _ & _ & Hc).
  destruct (name_and_save_frame _ _ _ Hname) as [Hgroups Hlogger].
  exists nested, merged. repeat split; try done.
  - intros g Hg1 Hg2 Hg3.
    rewrite (getattr_setattr_ne _ _ _ _ _ Hpre), (getattr_setattr_ne _ _ _ _ _ Hmark) by done.
    by apply Hgroups.
  - intros f Hf1 Hf2.
    rewrite (getattr2_setattr_ne _ _ _ _ _ _ Hpre),
      (getattr2_setattr_ne _ _ _ _ _ _ Hmark) by done.
    by apply Hlogger.
Qed.

#[local] Arguments str_contains : simpl never.

Lemma check_metric_direction_agrees (args : pyval) (name : string) (mm : pyval) :
  getattr2 args "logger_args" "metric_name" = Ok (PStr name) →
  getattr2 args "logger_args" "maximize_metric" = Ok mm →
  check_metric_direction args =
    if direction_agrees name (truthy mm) then Ok tt else Err AssertionError.
Proof.
  intros Hname Hmm.
  unfold check_metric_direction, named_and_direction, direction_agrees.
  rewrite Hname, Hmm. cbn.
  destruct (str_contains "loss" name), (str_contains "AUROC" name),
    (str_contains "accuracy" name), (truthy mm); done.
Qed.

(** C6, amended.  In training mode, for a metric name that is a string:
    resolution fails whenever none of (contains "loss" and minimised),
    (contains "AUROC" and maximised), (contains "accuracy" and maximised)
    holds; in particular a name that contains "loss" but neither "AUROC" nor
    "accuracy" fails when maximised, and a name that contains "AUROC" or
    "accuracy" passes the check when maximised. *)
Theorem metric_direction_checked TS (w : world) (raw nested : gmap string pyval)
    (name : string) (mm : pyval) :
  fix_nested_namespaces raw = Ok nested →
  getattr2 (PNs nested) "logger_args" "metric_name" = Ok (PStr name) →
  getattr2 (PNs nested) "logger_args" "maximize_metric" = Ok mm →
  (direction_agrees name (truthy mm) = false →
     ∃ e, outcome (process_args TS w true raw) = Err e) ∧
  (str_contains "loss" name = true → str_contains "AUROC" name = false →
     str_contains "accuracy" name = false → truthy mm = true →
     direction_agrees name (truthy mm) = false) ∧
  (str_contains "AUROC" name = true ∨ str_contains "accuracy" name = true →
     truthy mm = true →
     direction_agrees name (truthy mm) = true ∧
     check_metric_direction (PNs nested) = Ok tt).
Proof.
  intros Hfix Hname Hmm. split; [|split].
  - intros Hbad.
    destruct (outcome (process_args TS w true raw)) as [resolved|e] eqn:Hout; [|by eauto].
    exfalso.
    apply process_args_Ok in Hout as (pre & _ & _ & Hpre & _).
    apply resolve_and_check_frame in Hpre
      as (nested' & merged & Hfix' & Hmerge & _ & Hlogger & Hcheck).
    rewrite Hfix in Hfix'. injection Hfix' as <-.
    pose proof (tasks_and_merge_training _ _ _ _ Hmerge) as Hsame.
    unfold check_best_ckpt_metric in Hcheck. ok_inv.
    rewrite (check_metric_direction_agrees pre name mm), Hbad in Hcheck; [done| |].
    + rewrite Hlogger by done. rewrite <- Hname. apply getattr2_group. by apply Hsame.
    + rewrite Hlogger by done. rewrite <- Hmm. apply getattr2_group. by apply Hsame.
  - intros Hloss Hauroc Hacc Hmax. unfold direction_agrees.
    by rewrite Hloss, Hauroc, Hacc, Hmax.
  - intros Hscore Hmax.
    assert (direction_agrees name (truthy mm) = true) as Hagree.
    { unfold direction_agrees. rewrite Hmax.
      destruct Hscore as [-> | ->]; simpl; by rewrite ?andb_false_r, ?orb_true_r. }
    split; [done|].
    by rewrite (check_metric_direction_agrees _ name mm), Hagree.
Qed.

(** ** The merged groups in the resolved configuration *)

(** C2, amended.  In every evaluation-mode resolution that succeeds, one
    sidecar file was read, the one next to the single checkpoint path when
    it is given and else next to the first path of the list; every field of
    its model group other than [ckpt_path] and [ckpt_paths] is the resolved
    value; the resolved [ckpt_path] is the one supplied; the resolved
    [ckpt_paths] is the empty list when a single path is given and the whole
    supplied list otherwise; every field of its transform group, and every
    field of its data group other than [dataset_name], is the resolved
    value. *)
Theorem sidecar_overwrites_command_line TS (w : world)
    (raw : gmap string pyval) (resolved : pyval) :
  outcome (process_args TS w false raw) = Ok resolved →
  ∃ nested p file model single,
    fix_nested_namespaces raw = Ok nested ∧
    first_ckpt (PNs nested) = Some p ∧
    (∀ path, EvJsonLoad path ∈ trace (process_args TS w false raw) ↔ path = sidecar_path p) ∧
    json_load w (sidecar_path p) = Ok file ∧
    subscript file "model_args" = Ok (PDict model) ∧
    (∀ f v, f ≠ "ckpt_path" → f ≠ "ckpt_paths" → model !! f = Some v →
       getattr2 resolved "model_args" f = Ok v) ∧
    getattr2 (PNs nested) "model_args" "ckpt_path" = Ok single ∧
    getattr2 resolved "model_args" "ckpt_path" = Ok single ∧
    (if truthy single
     then single = PStr p ∧ getattr2 resolved "model_args" "ckpt_paths" = Ok (PList [])
     else ∃ several,
            getattr2 (PNs nested) "model_args" "ckpt_paths" = Ok several ∧
            first_item several = Ok (PStr p) ∧
            getattr2 resolved "model_args" "ckpt_paths" = Ok several) ∧
    (∀ d f v, subscript file "transform_args" = Ok (PDict d) → d !! f = Some v →
       getattr2 resolved "transform_args" f = Ok v) ∧
    (∀ d f v, subscript file "data_args" = Ok (PDict d) → f ≠ "dataset_name" →
       d !! f = Some v → getattr2 resolved "data_args" f = Ok v).
Proof.
  intros Hres.
  pose proof Hres as Hres0.
  apply process_args_Ok in Hres as (pre & selected & deviced & Hpre & Hsel & Hdev & Hdir).
  apply resolve_and_check_frame in Hpre
    as (nested & merged & Hfix & Hmerge & Hgroups & _ & _).
  apply tasks_and_merge_evaluation in Hmerge as (missing & marked & Hmissing & Hmark & Hmerge).
  apply merge_ckpt_args_Ok in Hmerge
    as (p & several & file & model & Hchoose & Hfile & Hmodel & Hm & Hpath & Hpaths
        & Ht & Hd & _).
  rewrite (choose_ckpt_setattr _ _ _ _ Hmark) in Hchoose by done.
  destruct (select_dataset_Ok _ _ Hsel) as (_ & _ & _ & _ & Hsel_groups & Hsel_data).
  (* the three groups of the resolved configuration *)
  assert (∀ f, getattr2 resolved "model_args" f = getattr2 merged "model_args" f) as Rm.
  { intros f. apply getattr2_group.
    rewrite (set_results_dir_frame _ _ _ Hdir), (select_device_frame _ _ _ Hdev) by done.
    rewrite Hsel_groups by done. by apply Hgroups. }
  assert (∀ f, getattr2 resolved "transform_args" f = getattr2 merged "transform_args" f)
    as Rt.
  { intros f. apply getattr2_group.
    rewrite (set_results_dir_frame _ _ _ Hdir), (select_device_frame _ _ _ Hdev) by done.
    rewrite Hsel_groups by done. by apply Hgroups. }
  assert (∀ f, f ≠ "dataset_name" →
            getattr2 resolved "data_args" f = getattr2 merged "data_args" f) as Rd.
  { intros f Hf.
    transitivity (getattr2 selected "data_args" f).
    - apply getattr2_group.
      rewrite (set_results_dir_frame _ _ _ Hdir) by done.
      by rewrite (select_device_frame _ _ _ Hdev).
    - rewrite Hsel_data by done. apply getattr2_group. by apply Hgroups. }
  destruct (choose_ckpt_Ok _ _ _ Hchoose) as (single & Hsingle & Hcase).
  assert (first_ckpt (PNs nested) = Some p) as Hfirst.
  { unfold first_ckpt. by rewrite Hchoose. }
  exists nested, p, file, model, single.
  split; [done|]. split; [done|]. split.
  { intros path. rewrite json_load_events. split.
    - intros (_ & nested' & missing' & p' & Hfix' & _ & Hp' & ->).
      rewrite Hfix in Hfix'. injection Hfix' as <-. congruence.
    - intros ->. split; [done|]. exists nested, missing, p. repeat split; try done.
      } 
  split; [done|]. split; [done|]. split.
  { intros f v Hf1 Hf2 Hv. rewrite Rm. by apply Hm. }
  split; [done|]. split.
  { rewrite Rm, Hpath. rewrite <- Hsingle. by eapply getattr2_setattr_ne. }
  split.
  { destruct (truthy single).
    - destruct Hcase as [[= <-] ->]. split; [done|]. by rewrite Rm.
    - destruct Hcase as (Hseveral & _ & Hitem). exists several.
      split; [done|]. split; [done|]. by rewrite Rm. }
  split.
  - intros d f v Hsub Hv. rewrite Rt. by eapply Ht.
  - intros d f v Hsub Hf Hv. rewrite Rd by done. by eapply Hd.
Qed.

(** ** The orchestrator *)

Lemma trace_lift_bind {A B} (r : result A) (f : A → io B) :
  trace (lift r ≫= f) = match r with Ok a => trace (f a) | Err _ => [] end.
Proof. by destruct r. Qed.

Lemma outcome_lift_bind {A B} (r : result A) (f : A → io B) :
  outcome (lift r ≫= f) = match r with Ok a => outcome (f a) | Err e => Err e end.
Proof. by destruct r. Qed.

Lemma trace_call_bind {A B} (e : event) (r : result A) (f : A → io B) :
  trace (call e r ≫= f) = e :: match r with Ok a => trace (f a) | Err _ => [] end.
Proof. by destruct r. Qed.

Lemma outcome_call_bind {A B} (e : event) (r : result A) (f : A → io B) :
  outcome (call e r ≫= f) = match r with Ok a => outcome (f a) | Err e => Err e end.
Proof. by destruct r. Qed.

Lemma is_none_PNone (v : pyval) : is_none v = true ↔ v = PNone.
Proof. by destruct v. Qed.

Lemma write_results_trace TS (w : world) dataset_name split metrics_list metrics
    output_path name ckpt_info seq :
  trace (write_results TS w dataset_name split metrics_list metrics output_path name
           ckpt_info seq) =
    match results_row TS w dataset_name split metrics_list metrics name ckpt_info seq with
    | Ok row => [EvToCsv output_path row]
    | Err _ => []
    end.
Proof. unfold write_results. rewrite trace_lift_bind. by destruct results_row. Qed.

(** What [score] does, case by case. *)
Lemma score_cases TS (w : world) (c : collaborators)
    (args model_args logger_args data_args : pyval) (m : model)
    (ckpt_info : option pyval) (class_weights : pyval) (ld : loader) (results_dir : string) :
  let run := score TS w c args model_args logger_args data_args m ckpt_info class_weights
               ld results_dir in
  (* not scored: nothing happens *)
  (trace run = [] ∧
   ¬ (getattr args "config_path" = Ok PNone ∧
      ∃ v, getattr model_args "ckpt_paths" = Ok v ∧ truthy v = false))
  ∨
  (* scored *)
  (getattr args "config_path" = Ok PNone ∧
   (∃ v, getattr model_args "ckpt_paths" = Ok v ∧ truthy v = false) ∧
   ((trace run = [] ∧ is_ok (outcome run) = false) ∨
    (trace run = [EvEvaluate m ld] ∧
     (is_ok (outcome run) = true →
      ∃ write, getattr logger_args "write_results" = Ok write ∧ truthy write = false)) ∨
    (∃ row, trace run = [EvEvaluate m ld; EvToCsv (path_join results_dir "scores.csv") row] ∧
       outcome run = Ok tt ∧
       (∃ write, getattr logger_args "write_results" = Ok write ∧ truthy write = true) ∧
       ∃ dataset_name seq sp name info metrics,
         getattr data_args "dataset_name" = Ok dataset_name ∧
         (if py_eq_str dataset_name "stanford" then seq = PStr "competition"
          else getattr data_args "task_sequence" = Ok seq) ∧
         getattr data_args "split" = Ok sp ∧
         getattr logger_args "name" = Ok name ∧
         ckpt_info = Some info ∧
         results_row TS w dataset_name sp eval_metrics metrics name info seq = Ok row))).
Proof.
  intros run. subst run. unfold score.
  destruct (getattr args "config_path") as [config_path|] eqn:Hconfig;
    [|left; split; [done|by intros [[=] _]]].
  rewrite trace_lift_bind, outcome_lift_bind.
  destruct (is_none config_path) eqn:Hnone.
  2:{ left. rewrite trace_lift_bind. split; [done|]. intros [[= ->] _]. done. }
  apply is_none_PNone in Hnone as ->.
  destruct (getattr model_args "ckpt_paths") as [ckpt_paths|] eqn:Hpaths;
    [|left; split; [done|by intros (_ & v & [=] & _)]].
  cbn [mbind result_bind].
  rewrite trace_lift_bind, outcome_lift_bind.
  destruct (truthy ckpt_paths) eqn:Htruthy; cbn [negb].
  { left. split; [done|]. intros (_ & v & [= <-] & Hv). congruence. }
  right. split; [done|]. split; [by eauto|].
  rewrite !trace_lift_bind, !outcome_lift_bind.
  destruct (getattr args "has_tasks_missing"); [|by left].
  rewrite !trace_lift_bind, !outcome_lift_bind.
  destruct (getattr model_args "model_uncertainty"); [|by left].
  rewrite !trace_lift_bind, !outcome_lift_bind.
  destruct (getattr args "device"); [|by left].
  rewrite !trace_lift_bind, !outcome_lift_bind.
  rewrite trace_call_bind, outcome_call_bind.
  destruct (evaluate c m ld _ _ results_dir) as [[metrics curves]|];
    [|right; left; split; [done|by intros [=]]].
  rewrite trace_lift_bind, outcome_lift_bind.
  destruct (getattr logger_args "write_results") as [write|] eqn:Hwrite;
    [|right; left; split; [done|by intros [=]]].
  destruct (truthy write) eqn:Hw; [|right; left; split; [done|by eauto]].
  rewrite !trace_lift_bind, !outcome_lift_bind.
  destruct (getattr data_args "dataset_name") as [dataset_name|] eqn:Hname;
    [|right; left; split; [done|by intros [=]]].
  rewrite !trace_lift_bind, !outcome_lift_bind.
  destruct (if py_eq_str dataset_name "stanford" then _ else _) as [seq|] eqn:Hseq;
    [|right; left; split; [done|by intros [=]]].
  rewrite !trace_lift_bind, !outcome_lift_bind.
  destruct (getattr data_args "split") as [sp|] eqn:Hsplit;
    [|right; left; split; [done|by intros [=]]].
  rewrite !trace_lift_bind, !outcome_lift_bind.
  destruct (getattr logger_args "name") as [name|] eqn:Hlogname;
    [|right; left; split; [done|by intros [=]]].
  rewrite !trace_lift_bind, !outcome_lift_bind.
  destruct ckpt_info as [info|]; [|right; left; split; [done|by intros [=]]].
  rewrite write_results_trace. unfold write_results.
  rewrite outcome_lift_bind.
  destruct (results_row _ _ _ _ _ _ _ _ _) as [row|] eqn:Hrow;
    [|right; left; split; [done|by intros [=]]].
  right. right. exists row. split; [done|]. split; [done|]. split; [by eauto|].
  exists dataset_name, seq, sp, name, info, metrics.
  split; [done|]. split; [|done].
  destruct (py_eq_str dataset_name "stanford"); [by injection Hseq as <-|done].
Qed.

Ltac ok_inv' :=
  repeat first
    [ progress ok_inv
    | match goal with
      | H : outcome (let '(_, _) := ?x in _) = Ok _ |- _ => destruct x
      end ].

Lemma get_model_model_args TS (c : collaborators) (args model_args data_args : pyval)
    (m : model) (ckpt_info : option pyval) (model_args' : pyval) :
  outcome (get_model TS c args model_args data_args) = Ok (m, ckpt_info, model_args') →
  ∀ f, f ≠ "pretrained" → getattr model_args' f = getattr model_args f.
Proof.
  unfold get_model. intros H f Hf.
  apply io_bind_Ok in H as (use_multi & _ & H). cbn beta in H.
  destruct (truthy use_multi); [by ok_inv'|].
  apply io_bind_Ok in H as (use_csv & _ & H). cbn beta in H.
  destruct (truthy use_csv); [by ok_inv'|].
  apply io_bind_Ok in H as (config_path & _ & H). cbn beta in H.
  destruct (negb (is_none config_path)); [by ok_inv'|].
  apply io_bind_Ok in H as (ckpt_paths & _ & H). cbn beta in H.
  destruct (truthy ckpt_paths); [by ok_inv'|].
  ok_inv'. by eapply getattr_setattr_ne.
Qed.

Lemma prepare_not_scoring TS (c : collaborators) (args : pyval) :
  emits not_scoring (prepare TS c args).
Proof.
  unfold prepare, get_model, load_multi_model, get_loaders, write_model_paths.
  repeat emits_step; done.
Qed.

Lemma save_visuals_trace (logger_args : pyval) : trace (save_visuals logger_args) = [].
Proof.
  unfold save_visuals.
  destruct (getattr logger_args "save_cams") as [v|]; [|done]. rewrite trace_lift_bind.
  destruct (truthy v); done.
Qed.

Lemma prepare_Ok TS (c : collaborators) (args : pyval) (l : locals) :
  outcome (prepare TS c args) = Ok l →
  getattr args "logger_args" = Ok (l_logger_args l) ∧
  getattr args "data_args" = Ok (l_data_args l) ∧
  (∀ f, f ≠ "pretrained" → getattr (l_model_args l) f = getattr2 args "model_args" f).
Proof.
  unfold prepare. intros H.
  apply io_bind_Ok in H as (model_args & Hm & H). cbn beta in H.
  apply io_bind_Ok in H as (logger_args & Hl & H). cbn beta in H.
  apply io_bind_Ok in H as (data_args & Hd & H). cbn beta in H.
  apply io_bind_Ok in H as (transform_args & Ht & H). cbn beta in H.
  apply io_bind_Ok in H as ([[m ckpt_info] model_args'] & Hget & H). cbn beta iota in H.
  rewrite outcome_lift in Hm, Hl, Hd.
  ok_inv'. simpl. repeat split; try done.
  intros f Hf. unfold getattr2. rewrite Hm. simpl.
  by eapply get_model_model_args.
Qed.

Lemma test_trace TS (w : world) (c : collaborators) (args : pyval) :
  trace (test TS w c args) =
    trace (prepare TS c args) ++
    match outcome (prepare TS c args) with
    | Ok l =>
        trace (score TS w c args (l_model_args l) (l_logger_args l) (l_data_args l)
                 (l_model l) (l_ckpt_info l) (l_class_weights l) (l_eval_loader l)
                 (l_results_dir l))
    | Err _ => []
    end.
Proof.
  unfold test. rewrite trace_bind. f_equal.
  destruct (outcome (prepare TS c args)) as [l|]; [|done].
  rewrite trace_bind. destruct (outcome (score _ _ _ _ _ _ _ _ _ _ _ _)); [|by rewrite app_nil_r].
  by rewrite save_visuals_trace, app_nil_r.
Qed.

Lemma test_Ok TS (w : world) (c : collaborators) (args : pyval) :
  outcome (test TS w c args) = Ok tt →
  ∃ l,
    outcome (prepare TS c args) = Ok l ∧
    outcome (score TS w c args (l_model_args l) (l_logger_args l) (l_data_args l)
               (l_model l) (l_ckpt_info l) (l_class_weights l) (l_eval_loader l)
               (l_results_dir l)) = Ok tt.
Proof.
  unfold test. intros H.
  apply io_bind_Ok in H as (l & Hl & H). cbn beta in H.
  apply io_bind_Ok in H as ([] & Hs & _). eauto.
Qed.

Lemma scored_locals TS (c : collaborators) (args : pyval) (l : locals) :
  outcome (prepare TS c args) = Ok l →
  (getattr args "config_path" = Ok PNone ∧
   ∃ v, getattr (l_model_args l) "ckpt_paths" = Ok v ∧ truthy v = false) ↔
  is_scored args.
Proof.
  intros (_ & _ & Hm)%prepare_Ok. unfold is_scored. by rewrite Hm.
Qed.

Lemma write_locals TS (c : collaborators) (args : pyval) (l : locals) (b : bool) :
  outcome (prepare TS c args) = Ok l →
  (∃ write, getattr (l_logger_args l) "write_results" = Ok write ∧ truthy write = b) ↔
  (∃ write, getattr2 args "logger_args" "write_results" = Ok write ∧ truthy write = b).
Proof.
  intros (Hl & _ & _)%prepare_Ok. unfold getattr2. by rewrite Hl.
Qed.

(** C7, amended.  The evaluator is invoked only if the arguments have no
    external-ensemble configuration path and no (non-empty) list of
    checkpoint paths, whichever model was loaded; a row is written only if
    moreover [write_results] is set; and in a run that completes under these
    conditions the evaluator is invoked, on the model and the evaluation
    loader, and the row is written. *)
Theorem scoring_iff_no_ensemble_arguments TS (w : world) (c : collaborators) (args : pyval) :
  (∀ e, e ∈ trace (test TS w c args) → is_evaluate e = true → is_scored args) ∧
  (∀ e, e ∈ trace (test TS w c args) → is_to_csv e = true →
     is_scored args ∧ asks_to_write args) ∧
  (outcome (test TS w c args) = Ok tt → is_scored args →
     ∃ l, outcome (prepare TS c args) = Ok l ∧
          EvEvaluate (l_model l) (l_eval_loader l) ∈ trace (test TS w c args)) ∧
  (outcome (test TS w c args) = Ok tt → is_scored args → asks_to_write args →
     ∃ e, e ∈ trace (test TS w c args) ∧ is_to_csv e = true) ∧
  (is_scored args → ¬ asks_to_write args →
     ∀ e, e ∈ trace (test TS w c args) → is_to_csv e = false).
Proof.
  pose proof (prepare_not_scoring TS c args) as Hprepare.
  assert (∀ e, e ∈ trace (prepare TS c args) → is_evaluate e = true → False) as Hno_eval.
  { intros e He Hev. apply (emits_elem _ _ _ Hprepare) in He as [He _]. congruence. }
  assert (∀ e, e ∈ trace (prepare TS c args) → is_to_csv e = false) as Hno_csv.
  { intros e He. by apply (emits_elem _ _ _ Hprepare) in He as [_ He]. }
  assert (outcome (test TS w c args) = Ok tt →
          ∃ l, outcome (prepare TS c args) = Ok l ∧
               outcome (score TS w c args (l_model_args l) (l_logger_args l) (l_data_args l)
                          (l_model l) (l_ckpt_info l) (l_class_weights l)
                          (l_eval_loader l) (l_results_dir l)) = Ok tt) as Hdone
    by apply test_Ok.
  rewrite test_trace.
  destruct (outcome (prepare TS c args)) as [l|err] eqn:Hl.
  2:{ rewrite app_nil_r. split; [|split; [|split; [|split]]].
      - intros e He Hev. by destruct (Hno_eval e).
      - intros e He Hev. rewrite (Hno_csv e He) in Hev. done.
      - intros H. by destruct (Hdone H) as (l & [=] & _).
      - intros H. by destruct (Hdone H) as (l & [=] & _).
      - intros _ _ e He. by apply Hno_csv. }
  pose proof (scored_locals TS c args l Hl) as Hscored.
  pose proof (write_locals TS c args l true Hl) as Hwrite.
  destruct (score_cases TS w c args (l_model_args l) (l_logger_args l) (l_data_args l)
              (l_model l) (l_ckpt_info l) (l_class_weights l) (l_eval_loader l)
              (l_results_dir l))
    as [[Htrace Hnot]|(Hconfig & Hpaths & Hcases)].
  - (* not scored *)
    rewrite Htrace, app_nil_r. rewrite Hscored in Hnot.
    split; [|split; [|split; [|split]]].
    + intros e He Hev. by destruct (Hno_eval e).
    + intros e He Hev. rewrite (Hno_csv e He) in Hev. done.
    + done.
    + done.
    + intros _ _ e He. by apply Hno_csv.
  - (* scored *)
    assert (is_scored args) as Hs by (apply Hscored; done).
    destruct Hcases as [[Htrace Hfail]|[[Htrace Hquiet]|(row & Htrace & Hok & Hw & _)]];
      rewrite Htrace.
    + (* a failure before the evaluator is reached *)
      rewrite app_nil_r. split; [|split; [|split; [|split]]].
      * done.
      * intros e He Hev. rewrite (Hno_csv e He) in Hev. done.
      * intros H. destruct (Hdone H) as (l' & [= <-] & Hs'). by rewrite Hs' in Hfail.
      * intros H. destruct (Hdone H) as (l' & [= <-] & Hs'). by rewrite Hs' in Hfail.
      * intros _ _ e He. by apply Hno_csv.
    + (* evaluated, nothing written *)
      split; [|split; [|split; [|split]]].
      * done.
      * intros e [He|He]%elem_of_app Hev.
        -- rewrite (Hno_csv e He) in Hev. done.
        -- apply list_elem_of_singleton in He as ->. done.
      * intros _. exists l. split; [done|]. apply elem_of_app. right.
        by apply list_elem_of_singleton.
      * intros H _ Hasks. exfalso.
        destruct (Hdone H) as (l' & [= <-] & Hs').
        destruct Hquiet as (v & Hv & Hf); [by rewrite Hs'|].
        apply Hwrite in Hasks as (v' & Hv' & Ht). congruence.
      * intros _ _ e [He|He]%elem_of_app.
        -- by apply Hno_csv.
        -- by apply list_elem_of_singleton in He as ->.
    + (* evaluated and written *)
      assert (asks_to_write args) as Ha by (by apply Hwrite).
      split; [|split; [|split; [|split]]].
      * done.
      * done.
      * intros _. exists l. split; [done|]. apply elem_of_app. right. by left.
      * intros _ _ _. eexists. split; [apply elem_of_app; right; right; by left|done].
      * done.
Qed.




(** C1 as stated fails: with an external ensemble configuration and the
    CSV-replay model both requested, the sidecar next to the checkpoint is
    still read; and with an ensemble configuration and no checkpoint,
    resolution does not proceed (the local [ckpt_path] is unbound). *)
Lemma sidecar_read_despite_ensemble_and_csv :
  csv_replay_args !! "config_path" = Some (PStr "ensemble.json") ∧
  csv_replay_args !! "model_args.use_csv_probs" = Some (PBool true) ∧
  head (trace (process_args sample_sequences sample_world false csv_replay_args))
    = Some (EvJsonLoad "ckpts/run1/args.json") ∧
  process_args sample_sequences sample_world false ensemble_only_args = ([], Err NameError).
Proof. repeat split; vm_compute; reflexivity. Qed.

(** C2 as stated fails: with a single checkpoint path and a list both
    given, the sidecar read is the single path's, and the resolved
    [ckpt_paths] is neither the sidecar's value nor the supplied list. *)
Lemma ckpt_paths_neither_sidecar_nor_list :
  both_ckpt_args !! "model_args.ckpt_paths"
    = Some (PList [PStr "ckpts/run2/a.pth.tar"; PStr "ckpts/run3/b.pth.tar"]) ∧
  (subscript sample_sidecar "model_args" ≫= λ m, subscript m "ckpt_paths") = Ok PNone ∧
  head (trace (process_args sample_sequences sample_world false both_ckpt_args))
    = Some (EvJsonLoad "ckpts/run1/args.json") ∧
  getattr2 (resolved_of false both_ckpt_args) "model_args" "ckpt_paths" = Ok (PList []).
Proof. repeat split; vm_compute; reflexivity. Qed.

(** C2, amended, on the sample evaluation run. *)
Lemma sidecar_overwrites_command_line_witness :
  ∃ nested p file model single,
    fix_nested_namespaces evaluation_args = Ok nested ∧
    first_ckpt (PNs nested) = Some p ∧
    (∀ path,
       EvJsonLoad path ∈ trace (process_args sample_sequences sample_world false evaluation_args)
       ↔ path = sidecar_path p) ∧
    json_load sample_world (sidecar_path p) = Ok file ∧
    subscript file "model_args" = Ok (PDict model) ∧
    (∀ f v, f ≠ "ckpt_path" → f ≠ "ckpt_paths" → model !! f = Some v →
       getattr2 (resolved_of false evaluation_args) "model_args" f = Ok v) ∧
    getattr2 (PNs nested) "model_args" "ckpt_path" = Ok single ∧
    getattr2 (resolved_of false evaluation_args) "model_args" "ckpt_path" = Ok single ∧
    (if truthy single
     then single = PStr p ∧
          getattr2 (resolved_of false evaluation_args) "model_args" "ckpt_paths"
            = Ok (PList [])
     else ∃ several,
            getattr2 (PNs nested) "model_args" "ckpt_paths" = Ok several ∧
            first_item several = Ok (PStr p) ∧
            getattr2 (resolved_of false evaluation_args) "model_args" "ckpt_paths"
              = Ok several) ∧
    (∀ d f v, subscript file "transform_args" = Ok (PDict d) → d !! f = Some v →
       getattr2 (resolved_of false evaluation_args) "transform_args" f = Ok v) ∧
    (∀ d f v, subscript file "data_args" = Ok (PDict d) → f ≠ "dataset_name" →
       d !! f = Some v →
       getattr2 (resolved_of false evaluation_args) "data_args" f = Ok v).
Proof.
  apply (sidecar_overwrites_command_line sample_sequences sample_world evaluation_args
           (resolved_of false evaluation_args)).
  vm_compute. reflexivity.
Defined.

Example sidecar_value_wins :
  evaluation_args !! "model_args.pretrained" = Some (PBool true) ∧
  getattr2 (resolved_of false evaluation_args) "model_args" "pretrained" = Ok (PBool false) ∧
  getattr2 (resolved_of false evaluation_args) "model_args" "ckpt_path"
    = Ok (PStr "ckpts/run1/best.pth.tar") ∧
  getattr2 (resolved_of false evaluation_args) "transform_args" "scale" = Ok (PInt 320).
Proof. repeat split; vm_compute; reflexivity. Qed.

(** C6 as stated fails: a name that contains "loss" passes when maximised
    if it also contains "AUROC". *)
Lemma loss_and_AUROC_name_passes :
  mixed_name_args !! "logger_args.metric_name" = Some (PStr "valid_loss_AUROC") ∧
  str_contains "loss" "valid_loss_AUROC" = true ∧
  mixed_name_args !! "logger_args.maximize_metric" = Some (PBool true) ∧
  is_ok (outcome (process_args sample_sequences sample_world true mixed_name_args)) = true.
Proof. repeat split; vm_compute; reflexivity. Qed.

(** C6, amended, for "nih-valid_loss" maximised. *)
Lemma metric_direction_checked_witness :
  (direction_agrees "nih-valid_loss" (truthy (PBool true)) = false →
     ∃ e, outcome (process_args sample_sequences sample_world true maximized_loss_args)
          = Err e) ∧
  (str_contains "loss" "nih-valid_loss" = true →
     str_contains "AUROC" "nih-valid_loss" = false →
     str_contains "accuracy" "nih-valid_loss" = false → truthy (PBool true) = true →
     direction_agrees "nih-valid_loss" (truthy (PBool true)) = false) ∧
  (str_contains "AUROC" "nih-valid_loss" = true ∨
   str_contains "accuracy" "nih-valid_loss" = true →
     truthy (PBool true) = true →
     direction_agrees "nih-valid_loss" (truthy (PBool true)) = true ∧
     check_metric_direction (PNs (nested_of maximized_loss_args)) = Ok tt).
Proof.
  apply (metric_direction_checked sample_sequences sample_world maximized_loss_args
           (nested_of maximized_loss_args) "nih-valid_loss" (PBool true));
    vm_compute; reflexivity.
Defined.

Example maximized_loss_fails :
  outcome (process_args sample_sequences sample_world true maximized_loss_args)
    = Err AssertionError ∧
  check_metric_direction
    (PNs (nested_of (<["logger_args.metric_name" := PStr "stanford-valid_competition_avg_AUROC"]>
                       maximized_loss_args))) = Ok tt.
Proof. split; vm_compute; reflexivity. Qed.

(** C8 as stated fails: with no evaluation flag on the command line, an
    evaluation run takes its dataset from the sidecar file, and a training
    run can fail earlier with another error. *)
Lemma dataset_from_sidecar_or_earlier_error :
  (∀ d, evaluation_args !! ("data_args." +:+ flag_name d) = Some (PBool false)) ∧
  getattr2 (resolved_of false evaluation_args) "data_args" "dataset_name" = Ok (PStr "nih") ∧
  (∀ d, no_dataset_bad_cadence_args !! ("data_args." +:+ flag_name d) = Some (PBool false)) ∧
  outcome (process_args sample_sequences sample_world true no_dataset_bad_cadence_args)
    = Err (ValueError "iters_per_eval must be divisible by batch_size.").
Proof.
  split; [by intros []; vm_compute|]. split; [vm_compute; reflexivity|].
  split; [by intros []; vm_compute|]. vm_compute. reflexivity.
Qed.

(** C8, amended, on a training run with no flag set. *)
Lemma dataset_label_or_error_witness :
  ((∀ d, flag_is (checked_of true no_dataset_args) d false) ∧
   outcome (process_args sample_sequences sample_world true no_dataset_args)
     = Err no_dataset_error ∧
   (true = false →
    outcome (main sample_sequences sample_world sample_collaborators no_dataset_args)
      = Err no_dataset_error ∧
    emits (λ e, is_model_load e = false)
      (main sample_sequences sample_world sample_collaborators no_dataset_args)))
  ∨
  (∃ d selected,
     flag_is (checked_of true no_dataset_args) d true ∧
     (∀ d', (rank d' < rank d)%nat → flag_is (checked_of true no_dataset_args) d' false) ∧
     select_dataset (checked_of true no_dataset_args) = Ok selected ∧
     getattr2 selected "data_args" "dataset_name" = Ok (PStr (native_key d)) ∧
     ∀ resolved,
       outcome (process_args sample_sequences sample_world true no_dataset_args) = Ok resolved →
       getattr2 resolved "data_args" "dataset_name" = Ok (PStr (native_key d))).
Proof.
  apply (dataset_label_or_error sample_sequences sample_world sample_collaborators true
           no_dataset_args (checked_of true no_dataset_args)).
  - vm_compute. reflexivity.
  - intros d. exists false. unfold flag_is. eexists.
    destruct d; split; vm_compute; reflexivity.
Defined.

Example no_dataset_fails_before_loading :
  outcome (process_args sample_sequences sample_world true no_dataset_args)
    = Err no_dataset_error ∧
  outcome (main sample_sequences bare_sidecar_world sample_collaborators evaluation_args)
    = Err no_dataset_error ∧
  filter (λ e, is_model_load e = true)
    (trace (main sample_sequences bare_sidecar_world sample_collaborators evaluation_args)) = [].
Proof. repeat split; vm_compute; reflexivity. Qed.

(** C4 as stated fails: a metrics table without one of the two loss
    entries, or empty, makes [write_results] raise before anything is
    written. *)
Lemma write_results_needs_both_losses :
  write_results sample_sequences sample_world (PStr "nih") (PStr "test") eval_metrics
    (delete "nih-test_weighted_loss" sample_metrics) "results/scores.csv"
    (PStr "debugging") (PDict {["epoch" := PInt 7]}) (PStr "pocus") = ([], Err KeyError) ∧
  write_results sample_sequences sample_world (PStr "nih") (PStr "test") eval_metrics
    ∅ "results/scores.csv"
    (PStr "debugging") (PDict {["epoch" := PInt 7]}) (PStr "pocus") = ([], Err KeyError).
Proof. split; vm_compute; reflexivity. Qed.

(** C4, amended, on a table with two of the six metrics of one task. *)
Lemma write_results_fills_missing_witness :
  ∃ row,
    write_results sample_sequences sample_world (PStr "nih") (PStr "test") eval_metrics
      sample_metrics "results/scores.csv" (PStr "debugging") (PDict {["epoch" := PInt 7]})
      (PStr "pocus") = ([EvToCsv "results/scores.csv" row], Ok tt) ∧
    (∀ col, col ∈ generic_columns eval_metrics ["Pneumonia"] →
       dict_get col row =
         Some (default NAN
                 (sample_metrics !! ("nih" +:+ "-" +:+ fmt sample_world (PStr "test")
                                      +:+ "_" +:+ col)))) ∧
    generic_columns eval_metrics ["Pneumonia"] =
      ((λ task, task +:+ "AUPRC") <$> ["Pneumonia"]) ++
      ((λ task, task +:+ "AUROC") <$> ["Pneumonia"]) ++
      ((λ task, task +:+ "log_loss") <$> ["Pneumonia"]) ++
      ((λ task, task +:+ "rads_below_ROC") <$> ["Pneumonia"]) ++
      ((λ task, task +:+ "rads_below_PR") <$> ["Pneumonia"]) ++
      ((λ task, task +:+ "accuracy") <$> ["Pneumonia"]).
Proof.
  apply (write_results_fills_missing sample_sequences sample_world "nih" (PStr "test")
           sample_metrics "results/scores.csv" (PStr "debugging")
           (PDict {["epoch" := PInt 7]}) (PStr "pocus") ["Pneumonia"] (PInt 7)
           (PFloat (Qmake 1 2)) (PFloat (Qmake 3 5)));
    vm_compute; reflexivity.
Defined.

Example two_of_six_metrics_present :
  write_results sample_sequences sample_world (PStr "nih") (PStr "test") eval_metrics
    sample_metrics "results/scores.csv" (PStr "debugging") (PDict {["epoch" := PInt 7]})
    (PStr "pocus") =
  ([EvToCsv "results/scores.csv"
      [("name", PStr "debugging"); ("dataset", PStr "nih"); ("epoch", PInt 7);
       ("test_loss", PFloat (Qmake 1 2)); ("weighted_loss", PFloat (Qmake 3 5));
       ("PneumoniaAUPRC", PNaN); ("PneumoniaAUROC", PFloat (Qmake 9 10));
       ("Pneumonialog_loss", PNaN); ("Pneumoniarads_below_ROC", PNaN);
       ("Pneumoniarads_below_PR", PNaN); ("Pneumoniaaccuracy", PFloat (Qmake 4 5))]],
   Ok tt).
Proof. vm_compute. reflexivity. Qed.

(** C5 on three checkpoints that load and agree on their task sequence. *)
Example load_multi_model_raises :
  load_multi_model sample_collaborators sample_multi_args (PNs ∅) (PNs ∅) (PList [PInt 0])
  = ([EvLoadModel (PStr "ckpts/ap/best.pth.tar");
      EvLoadModel (PStr "ckpts/pa/best.pth.tar")],
     Err NameError).
Proof. vm_compute. reflexivity. Qed.

(** C7 as stated fails: a run that loads the CSV-replay model while a
    configuration path is also given completes without evaluating; and a run
    that evaluates writes no row when [write_results] is off. *)
Lemma csv_replay_with_config_path_not_scored :
  let run := test sample_sequences sample_world sample_collaborators
               (resolved_of false csv_replay_args) in
  outcome run = Ok tt ∧
  filter (λ e, is_model_load e = true) (trace run)
    = [EvCSVReaderModel (PStr "ckpts/run1/best.pth.tar") ["Pneumonia"]] ∧
  filter (λ e, is_evaluate e = true) (trace run) = [] ∧
  let quiet := test sample_sequences sample_world sample_collaborators
                 (resolved_of false quiet_args) in
  outcome quiet = Ok tt ∧
  length (filter (λ e, is_evaluate e = true) (trace quiet)) = 1%nat ∧
  filter (λ e, is_to_csv e = true) (trace quiet) = [].
Proof. repeat split; vm_compute; reflexivity. Qed.

Example single_checkpoint_is_scored :
  let run := test sample_sequences sample_world sample_collaborators
               (resolved_of false evaluation_args) in
  outcome run = Ok tt ∧
  length (filter (λ e, is_evaluate e = true) (trace run)) = 1%nat ∧
  length (filter (λ e, is_to_csv e = true) (trace run)) = 1%nat.
Proof. repeat split; vm_compute; reflexivity. Qed.

(** C10: a Stanford run scored on the configured sequence and reported on
    the competition tasks. *)
Example stanford_columns_differ_from_scored :
  let run := test sample_sequences stanford_world stanford_collaborators stanford_config in
  getattr2 stanford_config "data_args" "dataset_name" = Ok (PStr "stanford") ∧
  getattr2 stanford_config "data_args" "task_sequence" = Ok (PStr "stanford") ∧
  omap loader_tasks (trace run) =
    [["No Finding"; "Edema"; "Pneumonia"]; ["No Finding"; "Edema"; "Pneumonia"];
     ["No Finding"; "Edema"; "Pneumonia"]] ∧
  omap written_columns (trace run) =
    [["name"; "dataset"; "epoch"; "test_loss"; "weighted_loss";
      "EdemaAUPRC"; "EdemaAUROC"; "Edemalog_loss"; "Edemarads_below_ROC";
      "Edemarads_below_PR"; "Edemaaccuracy"]].
Proof. repeat split; vm_compute; reflexivity. Qed.
